(** * GestureInteraction: the hand-driven particle engine, embedded in Rocq

    A shallow embedding of the simulation core of the repository, the
    modules config.js, glhand3D.js, particleSystem.js and
    gestureHandling.js of static/gijss, together with the properties the
    specification states about it.  Every definition carries the name of
    the function or constant it embeds.

    Numbers.  JavaScript numbers are modelled as real numbers: every
    arithmetic operation is the exact one, and the typed arrays
    (Float32Array) store reals without rounding.  Where IEEE-754 gives a
    division by zero a meaning the code relies on (a comparison against
    an infinite or undefined ratio), the model writes that meaning out.

    Arrays.  A typed array is a [list R]; [a !!! i] reads index [i] and
    [<[i:=v]> a] writes it.  A write outside the array is ignored, as it is
    for a typed array.  A read outside the array is [undefined] in the
    source and 0 here; the loops of the engine stay inside the arrays when
    the buffers have the sizes setupParticles gives them, and the
    properties are stated for such buffers. *)

From Stdlib Require Import Reals Psatz Lia List Bool ZArith QArith Qminmax Qreals Qround String.
From stdpp Require Import base decidable option list.
Import ListNotations.

Open Scope R_scope.

(* ================================================================== *)
(** * Numeric helpers *)

#[global] Instance R_inhabited : Inhabited R := populate 0.
#[global] Instance R_eq_dec : EqDecision R := Req_dec_T.
#[global] Instance Rlt_decision (x y : R) : Decision (x < y) := Rlt_dec x y.
#[global] Instance Rgt_decision (x y : R) : Decision (x > y) := Rgt_dec x y.
#[global] Instance Rle_decision (x y : R) : Decision (x <= y) := Rle_dec x y.

(** glhand3D.js: [export const EPS = 1e-6]. *)
Definition EPS : R := 1e-6.

(** THREE.MathUtils.clamp(value, min, max) = max(min, min(max, value)). *)
Definition clamp (value lo hi : R) : R := Rmax lo (Rmin hi value).

(** THREE.MathUtils.lerp(x, y, t) = (1 - t) * x + t * y. *)
Definition lerp (x y t : R) : R := (1 - t) * x + t * y.

(** Math.hypot(a, b). *)
Definition hypot (a b : R) : R := sqrt (a * a + b * b).

(** [a / b > c] for non-negative [a] and [b] and a positive constant [c],
    as JavaScript evaluates it: a positive number over zero is +Infinity
    (greater than [c]), and zero over zero is NaN (every comparison with
    it is false). *)
Definition ratio_gt (a b c : R) : bool :=
  if decide (b = 0) then bool_decide (a > 0) else bool_decide (a / b > c).

(** THREE.Vector3. *)
Record Vector3 : Type := mkVector3 { vx : R; vy : R; vz : R }.

Definition vzero : Vector3 := mkVector3 0 0 0.
(** Vector3.lerp(v, alpha): each component moves by [(v - this) * alpha]. *)
Definition vlerp (a b : Vector3) (alpha : R) : Vector3 :=
  mkVector3 (vx a + (vx b - vx a) * alpha)
            (vy a + (vy b - vy a) * alpha)
            (vz a + (vz b - vz a) * alpha).
(** Squared and plain Euclidean distance of two points. *)
Definition sqDist (a b : Vector3) : R :=
  (vx a - vx b) * (vx a - vx b) + (vy a - vy b) * (vy a - vy b)
  + (vz a - vz b) * (vz a - vz b).
Definition vdist (a b : Vector3) : R := sqrt (sqDist a b).

(** Compound assignment to an array cell, [a[i] = f(a[i])], and its four
    arithmetic forms [a[i] += e], [a[i] -= e], [a[i] *= e], [a[i] /= e]. *)
Definition modify_at (i : nat) (f : R -> R) (a : list R) : list R :=
  <[i := f (a !!! i)]> a.
Definition add_at (i : nat) (e : R) (a : list R) : list R :=
  modify_at i (fun x => x + e) a.
Definition sub_at (i : nat) (e : R) (a : list R) : list R :=
  modify_at i (fun x => x - e) a.
Definition mul_at (i : nat) (e : R) (a : list R) : list R :=
  modify_at i (fun x => x * e) a.
Definition div_at (i : nat) (e : R) (a : list R) : list R :=
  modify_at i (fun x => x / e) a.

(** [for (let i = 0; i < n; i++) body(i)] over a state of type [A]. *)
Fixpoint for_loop {A : Type} (n : nat) (body : nat -> A -> A) (a : A) : A :=
  match n with
  | O => a
  | S k => body k (for_loop k body a)
  end.

(* ================================================================== *)
(** * config.js: labels, constants and the shared State *)

Inductive GestureShape : Type := Sphere | Ring | Star | Heart | Text | Dragon.

#[global] Instance GestureShape_eq_dec : EqDecision GestureShape.
Proof. solve_decision. Defined.

Definition EXPLOSION_FORCE : R := 2.0.
Definition RETURN_SPEED : R := 0.08.
Definition DAMPING : R := 0.92.
Definition DEPTH_PUSH_STRENGTH : R := 0.18.
Definition OCCLUSION_MAX_FADE : R := 0.75.
Definition GESTURE_STABILITY_FRAMES : nat := 3.
Definition GESTURE_HISTORY_SIZE : nat := 10.

(** A raw classification result: a label or [null]. *)
Abbreviation RawGesture := (option GestureShape).

(** The part of THREE.Points the engine touches.  The position and color
    buffers of the geometry are the arrays State.positions and
    State.colors themselves (setupParticles wraps them in
    BufferAttributes), so they live in [State]; the mesh keeps its
    transform and the two upload flags. *)
Record Mesh : Type := mkMesh {
  rotation : Vector3;
  scale : Vector3;
  position : Vector3;
  positionNeedsUpdate : bool;
  colorNeedsUpdate : bool
}.

Record State : Type := mkState {
  particlesMesh : Mesh;
  positions : list R;
  velocities : list R;
  targets : list R;
  colors : list R;
  currentShape : GestureShape;
  isExploding : bool;
  handCentroid : Vector3;
  handPresent : bool;
  handRadius3D : R;
  lastHandTimestamp : R;
  followVelocity : Vector3;
  time : R;
  gestureHistory : list RawGesture;
  lastDetectedGesture : RawGesture;
  rainbowMode : bool;
  hueOffset : R;
  rainbowFrameCounter : nat;
  dynamicRadius : R;
  occlusionFactors : list R;
  (** State.occlusionState.lastColorVersionApplied *)
  lastColorVersionApplied : nat;
  colorVersion : nat;
  colorDirty : bool
}.

Definition set_particlesMesh (v : Mesh) (s : State) : State :=
  mkState v (positions s) (velocities s) (targets s) (colors s) (currentShape s)
    (isExploding s) (handCentroid s) (handPresent s) (handRadius3D s)
    (lastHandTimestamp s) (followVelocity s) (time s) (gestureHistory s)
    (lastDetectedGesture s) (rainbowMode s) (hueOffset s) (rainbowFrameCounter s)
    (dynamicRadius s) (occlusionFactors s) (lastColorVersionApplied s)
    (colorVersion s) (colorDirty s).
Definition set_positions (v : list R) (s : State) : State :=
  mkState (particlesMesh s) v (velocities s) (targets s) (colors s) (currentShape s)
    (isExploding s) (handCentroid s) (handPresent s) (handRadius3D s)
    (lastHandTimestamp s) (followVelocity s) (time s) (gestureHistory s)
    (lastDetectedGesture s) (rainbowMode s) (hueOffset s) (rainbowFrameCounter s)
    (dynamicRadius s) (occlusionFactors s) (lastColorVersionApplied s)
    (colorVersion s) (colorDirty s).
Definition set_velocities (v : list R) (s : State) : State :=
  mkState (particlesMesh s) (positions s) v (targets s) (colors s) (currentShape s)
    (isExploding s) (handCentroid s) (handPresent s) (handRadius3D s)
    (lastHandTimestamp s) (followVelocity s) (time s) (gestureHistory s)
    (lastDetectedGesture s) (rainbowMode s) (hueOffset s) (rainbowFrameCounter s)
    (dynamicRadius s) (occlusionFactors s) (lastColorVersionApplied s)
    (colorVersion s) (colorDirty s).
Definition set_targets (v : list R) (s : State) : State :=
  mkState (particlesMesh s) (positions s) (velocities s) v (colors s) (currentShape s)
    (isExploding s) (handCentroid s) (handPresent s) (handRadius3D s)
    (lastHandTimestamp s) (followVelocity s) (time s) (gestureHistory s)
    (lastDetectedGesture s) (rainbowMode s) (hueOffset s) (rainbowFrameCounter s)
    (dynamicRadius s) (occlusionFactors s) (lastColorVersionApplied s)
    (colorVersion s) (colorDirty s).
Definition set_colors (v : list R) (s : State) : State :=
  mkState (particlesMesh s) (positions s) (velocities s) (targets s) v (currentShape s)
    (isExploding s) (handCentroid s) (handPresent s) (handRadius3D s)
    (lastHandTimestamp s) (followVelocity s) (time s) (gestureHistory s)
    (lastDetectedGesture s) (rainbowMode s) (hueOffset s) (rainbowFrameCounter s)
    (dynamicRadius s) (occlusionFactors s) (lastColorVersionApplied s)
    (colorVersion s) (colorDirty s).
Definition set_currentShape (v : GestureShape) (s : State) : State :=
  mkState (particlesMesh s) (positions s) (velocities s) (targets s) (colors s) v
    (isExploding s) (handCentroid s) (handPresent s) (handRadius3D s)
    (lastHandTimestamp s) (followVelocity s) (time s) (gestureHistory s)
    (lastDetectedGesture s) (rainbowMode s) (hueOffset s) (rainbowFrameCounter s)
    (dynamicRadius s) (occlusionFactors s) (lastColorVersionApplied s)
    (colorVersion s) (colorDirty s).
Definition set_isExploding (v : bool) (s : State) : State :=
  mkState (particlesMesh s) (positions s) (velocities s) (targets s) (colors s)
    (currentShape s) v (handCentroid s) (handPresent s) (handRadius3D s)
    (lastHandTimestamp s) (followVelocity s) (time s) (gestureHistory s)
    (lastDetectedGesture s) (rainbowMode s) (hueOffset s) (rainbowFrameCounter s)
    (dynamicRadius s) (occlusionFactors s) (lastColorVersionApplied s)
    (colorVersion s) (colorDirty s).
Definition set_handPresent (v : bool) (s : State) : State :=
  mkState (particlesMesh s) (positions s) (velocities s) (targets s) (colors s)
    (currentShape s) (isExploding s) (handCentroid s) v (handRadius3D s)
    (lastHandTimestamp s) (followVelocity s) (time s) (gestureHistory s)
    (lastDetectedGesture s) (rainbowMode s) (hueOffset s) (rainbowFrameCounter s)
    (dynamicRadius s) (occlusionFactors s) (lastColorVersionApplied s)
    (colorVersion s) (colorDirty s).
Definition set_followVelocity (v : Vector3) (s : State) : State :=
  mkState (particlesMesh s) (positions s) (velocities s) (targets s) (colors s)
    (currentShape s) (isExploding s) (handCentroid s) (handPresent s) (handRadius3D s)
    (lastHandTimestamp s) v (time s) (gestureHistory s)
    (lastDetectedGesture s) (rainbowMode s) (hueOffset s) (rainbowFrameCounter s)
    (dynamicRadius s) (occlusionFactors s) (lastColorVersionApplied s)
    (colorVersion s) (colorDirty s).
Definition set_time (v : R) (s : State) : State :=
  mkState (particlesMesh s) (positions s) (velocities s) (targets s) (colors s)
    (currentShape s) (isExploding s) (handCentroid s) (handPresent s) (handRadius3D s)
    (lastHandTimestamp s) (followVelocity s) v (gestureHistory s)
    (lastDetectedGesture s) (rainbowMode s) (hueOffset s) (rainbowFrameCounter s)
    (dynamicRadius s) (occlusionFactors s) (lastColorVersionApplied s)
    (colorVersion s) (colorDirty s).
Definition set_gestureHistory (v : list RawGesture) (s : State) : State :=
  mkState (particlesMesh s) (positions s) (velocities s) (targets s) (colors s)
    (currentShape s) (isExploding s) (handCentroid s) (handPresent s) (handRadius3D s)
    (lastHandTimestamp s) (followVelocity s) (time s) v
    (lastDetectedGesture s) (rainbowMode s) (hueOffset s) (rainbowFrameCounter s)
    (dynamicRadius s) (occlusionFactors s) (lastColorVersionApplied s)
    (colorVersion s) (colorDirty s).
Definition set_lastDetectedGesture (v : RawGesture) (s : State) : State :=
  mkState (particlesMesh s) (positions s) (velocities s) (targets s) (colors s)
    (currentShape s) (isExploding s) (handCentroid s) (handPresent s) (handRadius3D s)
    (lastHandTimestamp s) (followVelocity s) (time s) (gestureHistory s)
    v (rainbowMode s) (hueOffset s) (rainbowFrameCounter s)
    (dynamicRadius s) (occlusionFactors s) (lastColorVersionApplied s)
    (colorVersion s) (colorDirty s).
Definition set_hueOffset (v : R) (s : State) : State :=
  mkState (particlesMesh s) (positions s) (velocities s) (targets s) (colors s)
    (currentShape s) (isExploding s) (handCentroid s) (handPresent s) (handRadius3D s)
    (lastHandTimestamp s) (followVelocity s) (time s) (gestureHistory s)
    (lastDetectedGesture s) (rainbowMode s) v (rainbowFrameCounter s)
    (dynamicRadius s) (occlusionFactors s) (lastColorVersionApplied s)
    (colorVersion s) (colorDirty s).
Definition set_rainbowFrameCounter (v : nat) (s : State) : State :=
  mkState (particlesMesh s) (positions s) (velocities s) (targets s) (colors s)
    (currentShape s) (isExploding s) (handCentroid s) (handPresent s) (handRadius3D s)
    (lastHandTimestamp s) (followVelocity s) (time s) (gestureHistory s)
    (lastDetectedGesture s) (rainbowMode s) (hueOffset s) v
    (dynamicRadius s) (occlusionFactors s) (lastColorVersionApplied s)
    (colorVersion s) (colorDirty s).
Definition set_occlusionFactors (v : list R) (s : State) : State :=
  mkState (particlesMesh s) (positions s) (velocities s) (targets s) (colors s)
    (currentShape s) (isExploding s) (handCentroid s) (handPresent s) (handRadius3D s)
    (lastHandTimestamp s) (followVelocity s) (time s) (gestureHistory s)
    (lastDetectedGesture s) (rainbowMode s) (hueOffset s) (rainbowFrameCounter s)
    (dynamicRadius s) v (lastColorVersionApplied s)
    (colorVersion s) (colorDirty s).
Definition set_lastColorVersionApplied (v : nat) (s : State) : State :=
  mkState (particlesMesh s) (positions s) (velocities s) (targets s) (colors s)
    (currentShape s) (isExploding s) (handCentroid s) (handPresent s) (handRadius3D s)
    (lastHandTimestamp s) (followVelocity s) (time s) (gestureHistory s)
    (lastDetectedGesture s) (rainbowMode s) (hueOffset s) (rainbowFrameCounter s)
    (dynamicRadius s) (occlusionFactors s) v
    (colorVersion s) (colorDirty s).
Definition set_colorVersion (v : nat) (s : State) : State :=
  mkState (particlesMesh s) (positions s) (velocities s) (targets s) (colors s)
    (currentShape s) (isExploding s) (handCentroid s) (handPresent s) (handRadius3D s)
    (lastHandTimestamp s) (followVelocity s) (time s) (gestureHistory s)
    (lastDetectedGesture s) (rainbowMode s) (hueOffset s) (rainbowFrameCounter s)
    (dynamicRadius s) (occlusionFactors s) (lastColorVersionApplied s)
    v (colorDirty s).
Definition set_colorDirty (v : bool) (s : State) : State :=
  mkState (particlesMesh s) (positions s) (velocities s) (targets s) (colors s)
    (currentShape s) (isExploding s) (handCentroid s) (handPresent s) (handRadius3D s)
    (lastHandTimestamp s) (followVelocity s) (time s) (gestureHistory s)
    (lastDetectedGesture s) (rainbowMode s) (hueOffset s) (rainbowFrameCounter s)
    (dynamicRadius s) (occlusionFactors s) (lastColorVersionApplied s)
    (colorVersion s) v.

(** config.js: [markColorsUpdated] bumps the version token. *)
Definition markColorsUpdated (s : State) : State :=
  set_colorVersion (colorVersion s + 1)%nat s.

(* ================================================================== *)
(** * gestureHandling.js: the classifier and the stabilizer *)

(** One MediaPipe landmark: normalized [x], [y] and relative depth [z]. *)
Record Landmark : Type := mkLandmark { lx : R; ly : R; lz : R }.

Module Gesture.

(** [const dist = (p1, p2) => Math.hypot(p1.x - p2.x, p1.y - p2.y)]. *)
Definition dist (p1 p2 : Landmark) : R := hypot (lx p1 - lx p2) (ly p1 - ly p2).

(** The closure [isExtended(tipIdx, pipIdx, mcpIdx)].  Reading a landmark the
    frame does not have gives [undefined], and its [.x] throws: [None]. *)
Definition isExtended (landmarks : list Landmark) (tipIdx pipIdx mcpIdx : nat)
  : option bool :=
  wrist ← landmarks !! 0%nat;
  tip ← landmarks !! tipIdx;
  let dTip := dist wrist tip in
  pip ← landmarks !! pipIdx;
  let dPip := dist wrist pip in
  mcp ← landmarks !! mcpIdx;
  let dMcp := dist wrist mcp in
  if decide (tipIdx = 4%nat)
  then Some (ratio_gt dTip dPip 1.15 && ratio_gt dPip dMcp 0.85)
  else Some (ratio_gt dTip dPip 1.25 && ratio_gt dPip dMcp 0.9).

(** The closure [isThumbUp()]. *)
Definition isThumbUp (landmarks : list Landmark) : option bool :=
  thumbMcp ← landmarks !! 2%nat;
  thumbPip ← landmarks !! 3%nat;
  thumbTip ← landmarks !! 4%nat;
  wrist ← landmarks !! 0%nat;
  let thumbDirectionY := ly thumbTip - ly thumbMcp in
  let thumbLength := dist thumbMcp thumbTip in
  let wristToMcp := dist wrist thumbMcp in
  Some (ratio_gt thumbLength wristToMcp 0.4
        && bool_decide (thumbDirectionY < 0)
        && bool_decide (ly thumbTip < ly thumbPip)).

(** The five per-digit predicates of one frame, in the order the code
    computes them. *)
Record Digits : Type := mkDigits {
  thumbOpen : bool; indexOpen : bool; middleOpen : bool;
  ringOpen : bool; pinkyOpen : bool
}.

Definition digits (landmarks : list Landmark) : option Digits :=
  thumbOpen ← isThumbUp landmarks;
  indexOpen ← isExtended landmarks 8 6 5;
  middleOpen ← isExtended landmarks 12 10 9;
  ringOpen ← isExtended landmarks 16 14 13;
  pinkyOpen ← isExtended landmarks 20 18 17;
  Some (mkDigits thumbOpen indexOpen middleOpen ringOpen pinkyOpen).

(** [[thumbOpen, indexOpen, middleOpen, ringOpen, pinkyOpen].filter(Boolean).length] *)
Definition fingersCount (d : Digits) : nat :=
  length (filter (fun b : bool => b = true)
            [thumbOpen d; indexOpen d; middleOpen d; ringOpen d; pinkyOpen d]).

(** The chain of [if (...) return ...] that ends recognizeGesture. *)
Definition selectLabel (d : Digits) : RawGesture :=
  let fingersCount := fingersCount d in
  if indexOpen d && middleOpen d && negb (ringOpen d) && negb (pinkyOpen d)
     && negb (thumbOpen d) then Some Text
  else if indexOpen d && negb (middleOpen d) && negb (ringOpen d)
          && negb (pinkyOpen d) && negb (thumbOpen d) then Some Star
  else if thumbOpen d && negb (indexOpen d) && negb (middleOpen d)
          && negb (ringOpen d) && negb (pinkyOpen d) then Some Heart
  else if decide (fingersCount = 5%nat) then Some Sphere
  else if decide (fingersCount = 0%nat) then Some Ring
  else None.

(** [recognizeGesture(landmarks)]: [None] when the call throws, otherwise the
    label or [null]. *)
Definition recognizeGesture (landmarks : list Landmark) : option RawGesture :=
  d ← digits landmarks;
  Some (selectLabel d).

(** The specification's wording of the selection: an ordered list of rules,
    the first rule whose condition holds gives the label, no rule gives
    [null]. *)
Definition priority_rules : list ((Digits -> bool) * GestureShape) :=
  [ (fun d => indexOpen d && middleOpen d
              && negb (thumbOpen d || ringOpen d || pinkyOpen d), Text);
    (fun d => indexOpen d
              && negb (thumbOpen d || middleOpen d || ringOpen d || pinkyOpen d), Star);
    (fun d => thumbOpen d
              && negb (indexOpen d || middleOpen d || ringOpen d || pinkyOpen d), Heart);
    (fun d => bool_decide (fingersCount d = 5%nat), Sphere);
    (fun d => bool_decide (fingersCount d = 0%nat), Ring) ].

(** The three named poses of the priority list. *)
Definition text_pose (d : Digits) : Prop :=
  indexOpen d = true /\ middleOpen d = true /\
  thumbOpen d = false /\ ringOpen d = false /\ pinkyOpen d = false.
Definition star_pose (d : Digits) : Prop :=
  indexOpen d = true /\ thumbOpen d = false /\ middleOpen d = false /\
  ringOpen d = false /\ pinkyOpen d = false.
Definition heart_pose (d : Digits) : Prop :=
  thumbOpen d = true /\ indexOpen d = false /\ middleOpen d = false /\
  ringOpen d = false /\ pinkyOpen d = false.

Fixpoint first_match (rules : list ((Digits -> bool) * GestureShape)) (d : Digits)
  : RawGesture :=
  match rules with
  | [] => None
  | (cond, label) :: rest => if cond d then Some label else first_match rest d
  end.

(** [Array.prototype.slice(-n)]: the last [n] entries, or the whole array
    when it is shorter. *)
Definition slice_last {A : Type} (n : nat) (l : list A) : list A :=
  drop (length l - n) l.

(** [getStableGesture(newGesture)]: the returned commit and the state with the
    updated history. *)
Definition getStableGesture (newGesture : RawGesture) (s : State)
  : RawGesture * State :=
  (* State.gestureHistory.push(newGesture) *)
  let pushed := gestureHistory s ++ [newGesture] in
  (* if (length > GESTURE_HISTORY_SIZE) State.gestureHistory.shift() *)
  let history :=
    if decide (GESTURE_HISTORY_SIZE < length pushed)%nat then tail pushed else pushed in
  let s' := set_gestureHistory history s in
  if decide (length history < GESTURE_STABILITY_FRAMES)%nat then (None, s')
  else
    let recentGestures := slice_last GESTURE_STABILITY_FRAMES history in
    match recentGestures !! 0%nat with
    | Some (Some firstGesture) =>
        if forallb (fun g => bool_decide (g = Some firstGesture)) recentGestures
        then if decide (firstGesture <> currentShape s)
             then (Some firstGesture, s')
             else (None, s')
        else (None, s')
    | _ => (None, s')
    end.

(** The history the call leaves behind. *)
Definition history_after (g : RawGesture) (s : State) : list RawGesture :=
  gestureHistory (getStableGesture g s).2.

(** particleSystem.js, SHAPE_GENERATORS: the labels that have a generator. *)
Definition has_generator (g : GestureShape) : bool :=
  match g with
  | Sphere | Ring | Star | Heart | Text => true
  | Dragon => false
  end.

(** What onHandsResults does with the raw label of a frame, as far as the
    stabilizer can observe it: the label is recorded in
    State.lastDetectedGesture, the stabilizer is asked, and a returned
    commit that has a generator becomes State.currentShape and starts the
    explosion (triggerExplosion); the generator then rewrites the targets,
    which the stabilizer never reads. *)
Definition stabilize (detectedGesture : RawGesture) (s : State) : State :=
  let s := set_lastDetectedGesture detectedGesture s in
  let '(stableGesture, s1) := getStableGesture detectedGesture s in
  match stableGesture with
  | Some g => if has_generator g
              then set_isExploding true (set_currentShape g s1)
              else s1
  | None => s1
  end.

(** A sequence of raw labels, oldest first, fed one per hand result. *)
Definition feedGestures (gs : list RawGesture) (s : State) : State :=
  fold_left (fun acc g => stabilize g acc) gs s.

(** The last [GESTURE_STABILITY_FRAMES] entries of a history all carry the
    label [l]. *)
Definition stable_run (history : list RawGesture) (l : GestureShape) : Prop :=
  (3 <= length history)%nat /\
  forall k, (k < 3)%nat -> history !! (length history - 1 - k)%nat = Some (Some l).

End Gesture.

(* ================================================================== *)
(** * glhand3D.js: the pose normalizer and smoother *)





(** [smoothHandMovement(prev, next, alpha = 0.35)]. *)
Definition smoothHandMovement (prev next : Vector3) (alpha : R) : Vector3 :=
  let t := clamp alpha 0 1 in
  vlerp prev next t.


(* ================================================================== *)
(** * glhand3D.js: depth push and occlusion *)

(** Iteration [k] of the loop of applyDepthPushToParticles: the triple
    that starts at index [i = 3 k]. *)
Definition depthPushBody (posArray : list R) (handCenter : Vector3)
    (radius radiusSq pushStrength : R) (k : nat) (velocities : list R) : list R :=
  let i := (k * 3)%nat in
  let dx := posArray !!! i - vx handCenter in
  let dy := posArray !!! (i + 1)%nat - vy handCenter in
  let dz := posArray !!! (i + 2)%nat - vz handCenter in
  let distSq := dx * dx + dy * dy + dz * dz in
  if decide (distSq < radiusSq) then
    let dist := sqrt distSq + EPS in
    let t := 1 - dist / radius in
    let push := t * pushStrength in
    let velocities := add_at i ((dx / dist) * push) velocities in
    let velocities := add_at (i + 1) ((dy / dist) * push) velocities in
    add_at (i + 2) ((dz / dist) * push) velocities
  else velocities.

(** [applyDepthPushToParticles(particlesMesh, velocities, handCenter,
    handRadius, options)], called with its three objects present (the
    guard on a missing one returns at once).  [posArray] is the position
    buffer of the mesh; the result is the velocity array after the call.
    [pushStrength] is [options.pushStrength], absent or given.  The loop
    visits every complete triple of [posArray]; a trailing partial triple
    would read [undefined], its distance would be NaN and fail the test. *)
Definition applyDepthPushToParticles (posArray velocities : list R)
    (handCenter : Vector3) (handRadius : R) (pushStrength : option R) : list R :=
  let pushStrength := default 0.18 pushStrength in
  let radius := Rmax (handRadius * 1.2) EPS in
  let radiusSq := radius * radius in
  for_loop (length posArray / 3)
    (depthPushBody posArray handCenter radius radiusSq pushStrength) velocities.

(** The options of applyOcclusionToParticles.  Absent fields default to
    [handPresent = true], [maxFade = 0.75], [colorVersion = 0] and a fresh
    [occlusionState] with [lastColorVersionApplied = 0]. *)
Record OcclusionOpts : Type := mkOcclusionOpts {
  opt_handPresent : bool;
  opt_maxFade : R;
  opt_colorVersion : nat;
  (** occlusionState.lastColorVersionApplied *)
  opt_lastColorVersionApplied : nat
}.

Definition default_occlusion_opts : OcclusionOpts := mkOcclusionOpts true 0.75 0 0.

(** What the call leaves behind: the two arrays, the version it recorded and
    whether it raised [colorAttr.needsUpdate]. *)
Record OcclusionResult : Type := mkOcclusionResult {
  res_colors : list R;
  res_occlusionFactors : list R;
  res_lastColorVersionApplied : nat;
  res_changed : bool
}.

(** The running state of the loop: colors, occlusion factors, [changed]. *)
Definition OcclusionLoop : Type := list R * list R * bool.

(** The block shared by the three early exits: undo the fade of particle
    [i] if it has one. *)
Definition occlusionReset (i : nat) (prevFade : R) (st : OcclusionLoop) : OcclusionLoop :=
  let '(colors, occlusionFactors, changed) := st in
  let idx := (i * 3)%nat in
  if decide (prevFade <> 1) then
    let colors := div_at idx prevFade colors in
    let colors := div_at (idx + 1) prevFade colors in
    let colors := div_at (idx + 2) prevFade colors in
    (colors, <[i := 1]> occlusionFactors, true)
  else st.

(** One iteration of the loop of applyOcclusionToParticles. *)
Definition occlusionBody (posArray : list R) (handCenter : Vector3) (handRadius : R)
    (handPresent : bool) (maxFade radius radiusSq : R) (i : nat) (st : OcclusionLoop)
  : OcclusionLoop :=
  let '(colors, occlusionFactors, changed) := st in
  let idx := (i * 3)%nat in
  (* occlusionFactors[i] || 1 *)
  let prevFade :=
    if decide (occlusionFactors !!! i = 0) then 1 else occlusionFactors !!! i in
  if negb handPresent then occlusionReset i prevFade st
  else
    let dx := posArray !!! idx - vx handCenter in
    let dy := posArray !!! (idx + 1)%nat - vy handCenter in
    let dz := posArray !!! (idx + 2)%nat - vz handCenter in
    if decide (dz <= 0) then occlusionReset i prevFade st
    else
      let distSq := dx * dx + dy * dy in
      if decide (distSq > radiusSq) then occlusionReset i prevFade st
      else
        let dist := sqrt distSq + EPS in
        let radialFactor := 1 - dist / radius in
        (* dz > 0 here: over a zero denominator the quotient is +Infinity
           and the minimum is 1 *)
        let depthFactor :=
          if decide (handRadius * 1.5 + EPS = 0) then 1
          else Rmin 1 (dz / (handRadius * 1.5 + EPS)) in
        let fade := 1 - Rmin maxFade (radialFactor * depthFactor * maxFade) in
        if decide (Rabs (fade - prevFade) > 1e-3) then
          let colors := modify_at idx (fun c => (c / prevFade) * fade) colors in
          let colors := modify_at (idx + 1) (fun c => (c / prevFade) * fade) colors in
          let colors := modify_at (idx + 2) (fun c => (c / prevFade) * fade) colors in
          (colors, <[i := fade]> occlusionFactors, true)
        else st.

(** [applyOcclusionToParticles(particlesMesh, colors, occlusionFactors,
    handCenter, handRadius, opts)], called with its three objects present. *)
Definition applyOcclusionToParticles (posArray colors occlusionFactors : list R)
    (handCenter : Vector3) (handRadius : R) (opts : OcclusionOpts) : OcclusionResult :=
  let handPresent := opt_handPresent opts in
  let maxFade := opt_maxFade opts in
  let colorVersion := opt_colorVersion opts in
  (* the colors were rewritten from outside: forget the fades *)
  let occlusionFactors :=
    if decide (opt_lastColorVersionApplied opts <> colorVersion)
    then replicate (length occlusionFactors) 1
    else occlusionFactors in
  let radius := Rmax (handRadius * 1.25) EPS in
  let radiusSq := radius * radius in
  let '(colors, occlusionFactors, changed) :=
    for_loop (length occlusionFactors)
      (occlusionBody posArray handCenter handRadius handPresent maxFade radius radiusSq)
      (colors, occlusionFactors, false) in
  mkOcclusionResult colors occlusionFactors colorVersion changed.

(* ================================================================== *)
(** * particleSystem.js: physics and the frame scheduler *)

(** The hand force of updateParticles on a particle at squared distance
    [distSq] from the hand centroid: the three tiers around
    [State.dynamicRadius]. *)
Definition handForce (dynamicRadius distSq : R) : R :=
  let r1 := dynamicRadius * 0.45 in
  let r2 := dynamicRadius * 1.0 in
  let r3 := dynamicRadius * 1.7 in
  let r1Sq := r1 * r1 in
  let r2Sq := r2 * r2 in
  let r3Sq := r3 * r3 in
  if decide (distSq < r1Sq) then
    let t := 1 - distSq / r1Sq in
    0.10 * t * t
  else if decide (distSq < r2Sq) then
    let t := 1 - (distSq - r1Sq) / (r2Sq - r1Sq) in
    0.035 * t * t
  else if decide (distSq < r3Sq) then
    let t := 1 - (distSq - r2Sq) / (r3Sq - r2Sq) in
    0.008 * t
  else 0.

(** One iteration of the loop of updateParticles, on the position and
    velocity arrays.  [random k] is the value of the [k]-th call of
    Math.random() made by this tick; an exploding particle [i] takes the
    calls [3 i], [3 i + 1] and [3 i + 2]. *)
Definition updateParticlesBody (tgt : list R) (dynamicRadius : R)
    (handCentroid : Vector3) (handPresent isExploding : bool) (random : nat -> R)
    (i : nat) (pv : list R * list R) : list R * list R :=
  let '(pos, vel) := pv in
  let idx := (i * 3)%nat in
  let px := pos !!! idx in
  let py := pos !!! (idx + 1)%nat in
  let pz := pos !!! (idx + 2)%nat in
  let tx := tgt !!! idx in
  let ty := tgt !!! (idx + 1)%nat in
  let tz := tgt !!! (idx + 2)%nat in
  let vel :=
    if handPresent then
      let dx := px - vx handCentroid in
      let dy := py - vy handCentroid in
      let dz := pz - vz handCentroid in
      let distSq := dx * dx + dy * dy + dz * dz in
      let force := handForce dynamicRadius distSq in
      let vel := sub_at idx (dx * force) vel in
      let vel := sub_at (idx + 1) (dy * force) vel in
      sub_at (idx + 2) (dz * force) vel
    else vel in
  let vel :=
    if isExploding then
      let vel := add_at idx ((random idx - 0.5) * EXPLOSION_FORCE) vel in
      let vel := add_at (idx + 1) ((random (idx + 1)%nat - 0.5) * EXPLOSION_FORCE) vel in
      add_at (idx + 2) ((random (idx + 2)%nat - 0.5) * EXPLOSION_FORCE) vel
    else vel in
  let vel := add_at idx ((tx - px) * RETURN_SPEED) vel in
  let vel := add_at (idx + 1) ((ty - py) * RETURN_SPEED) vel in
  let vel := add_at (idx + 2) ((tz - pz) * RETURN_SPEED) vel in
  let vel := mul_at idx DAMPING vel in
  let vel := mul_at (idx + 1) DAMPING vel in
  let vel := mul_at (idx + 2) DAMPING vel in
  let pos := add_at idx (vel !!! idx) pos in
  let pos := add_at (idx + 1) (vel !!! (idx + 1)%nat) pos in
  let pos := add_at (idx + 2) (vel !!! (idx + 2)%nat) pos in
  (pos, vel).

Definition set_positionNeedsUpdate (b : bool) (m : Mesh) : Mesh :=
  mkMesh (rotation m) (scale m) (position m) b (colorNeedsUpdate m).
Definition set_colorNeedsUpdate (b : bool) (m : Mesh) : Mesh :=
  mkMesh (rotation m) (scale m) (position m) (positionNeedsUpdate m) b.

Section Engine.

(** config.js fixes the particle count once, from the window width and the
    number of hardware threads. *)
Variable PARTICLE_COUNT : nat.

(** config.js: [isLowPowerDevice = hardwareThreads <= 4]. *)
Variable isLowPowerDevice : bool.

(** THREE.Color.setHSL(h, s, l), as the red, green and blue it leaves in the
    color object. *)
Variable setHSL : R -> R -> R -> R * R * R.

Definition RAINBOW_UPDATE_INTERVAL : nat := if isLowPowerDevice then 6%nat else 3%nat.

(** The buffers have the sizes setupParticles and config.js allocate. *)
Definition buffers_allocated (s : State) : Prop :=
  length (positions s) = (PARTICLE_COUNT * 3)%nat /\
  length (velocities s) = (PARTICLE_COUNT * 3)%nat /\
  length (targets s) = (PARTICLE_COUNT * 3)%nat /\
  length (colors s) = (PARTICLE_COUNT * 3)%nat /\
  length (occlusionFactors s) = PARTICLE_COUNT.

(** [rainbowParticles()].  The hue is a non-negative number, and [% 1.0]
    keeps its fractional part. *)
Definition rainbowParticles (s : State) : State :=
  let colors :=
    for_loop PARTICLE_COUNT
      (fun i colors =>
         let idx := (i * 3)%nat in
         let hue := frac_part (INR i / INR PARTICLE_COUNT + hueOffset s) in
         let '(r, g, b) := setHSL hue 1.0 0.5 in
         let colors := <[idx := r]> colors in
         let colors := <[(idx + 1)%nat := g]> colors in
         <[(idx + 2)%nat := b]> colors)
      (colors s) in
  let s := set_colors colors s in
  let s := set_colorDirty true s in
  let s := markColorsUpdated s in
  (* particlesMesh is set once the particles exist *)
  let s := set_particlesMesh (set_colorNeedsUpdate true (particlesMesh s)) s in
  set_colorDirty false s.

(** [updateParticles()]. *)
Definition updateParticles (random : nat -> R) (s : State) : State :=
  let '(pos, vel) :=
    for_loop PARTICLE_COUNT
      (updateParticlesBody (targets s) (dynamicRadius s) (handCentroid s)
         (handPresent s) (isExploding s) random)
      (positions s, velocities s) in
  let s := set_positions pos s in
  let s := set_velocities vel s in
  set_particlesMesh (set_positionNeedsUpdate true (particlesMesh s)) s.

(** The call of applyDepthPushToParticles in animate, on the buffers of the
    State: the velocity array is updated in place. *)
Definition pushParticles (s : State) : State :=
  set_velocities
    (applyDepthPushToParticles (positions s) (velocities s) (handCentroid s)
       (handRadius3D s) (Some DEPTH_PUSH_STRENGTH)) s.

(** The call of applyOcclusionToParticles in animate, on the buffers and
    options of the State, with its effects written back: the two arrays
    are updated in place, [State.occlusionState] records the version, and
    the color attribute of the mesh is flagged when something changed. *)
Definition occludeParticles (s : State) : State :=
  let r :=
    applyOcclusionToParticles (positions s) (colors s) (occlusionFactors s)
      (handCentroid s) (handRadius3D s)
      (mkOcclusionOpts (handPresent s) OCCLUSION_MAX_FADE (colorVersion s)
         (lastColorVersionApplied s)) in
  let s := set_colors (res_colors r) s in
  let s := set_occlusionFactors (res_occlusionFactors r) s in
  let s := set_lastColorVersionApplied (res_lastColorVersionApplied r) s in
  if res_changed r
  then set_particlesMesh (set_colorNeedsUpdate true (particlesMesh s)) s
  else s.

(** The part of animate that moves the mesh: idle motion without a hand,
    following rotation with one. *)
Definition animateMesh (s : State) : State :=
  let mesh := particlesMesh s in
  if negb (handPresent s) then
    let t := time s in
    let rot := rotation mesh in
    let rot := mkVector3 (vx rot) (vy rot + sin (t * 0.6) * 0.03) (vz rot) in
    let rot := mkVector3 (sin (t * 0.9) * 0.18) (vy rot) (vz rot) in
    let rot := mkVector3 (vx rot) (vy rot) (cos (t * 0.8) * 0.15) in
    let bounceScale := 1.0 + sin (t * 1.5) * 0.12 in
    let scl := vlerp (scale mesh) (mkVector3 bounceScale bounceScale bounceScale) 0.14 in
    let p := position mesh in
    let p := mkVector3 (vx p) (sin (t * 1.0) * 0.36) (vz p) in
    let p := mkVector3 (cos (t * 0.9) * 0.26) (vy p) (vz p) in
    let p := mkVector3 (vx p) (vy p) (sin (t * 0.75) * 0.12) in
    set_particlesMesh
      (mkMesh rot scl p (positionNeedsUpdate mesh) (colorNeedsUpdate mesh)) s
  else
    let rot := rotation mesh in
    let rot :=
      mkVector3 (vx rot) (vy rot + (vx (handCentroid s) * 0.05 - vy rot) * 0.05) (vz rot) in
    let rot :=
      mkVector3 (vx rot + (- vy (handCentroid s) * 0.05 - vx rot) * 0.05) (vy rot) (vz rot) in
    set_particlesMesh
      (mkMesh rot (scale mesh) (position mesh)
         (positionNeedsUpdate mesh) (colorNeedsUpdate mesh)) s.

(** [animate()], one render tick.  [now] is the value performance.now()
    returns in this tick and [random] the Math.random() calls of the tick.
    Scheduling the next frame, the debug panel (it only reads the state)
    and the draw call leave the state as it is. *)
Definition animate (now : R) (random : nat -> R) (s : State) : State :=
  let s := set_time (time s + 0.01) s in
  let s :=
    if decide (now - lastHandTimestamp s > 800) then
      let s := set_handPresent false s in
      set_followVelocity vzero s
    else s in
  let s :=
    if rainbowMode s then
      let s := set_rainbowFrameCounter (rainbowFrameCounter s + 1)%nat s in
      if decide (rainbowFrameCounter s mod RAINBOW_UPDATE_INTERVAL = 0)%nat then
        let s := set_hueOffset (hueOffset s + 0.001) s in
        let s :=
          if decide (hueOffset s > 1.0) then set_hueOffset (hueOffset s - 1.0) s else s in
        rainbowParticles s
      else s
    else s in
  let s := if handPresent s then pushParticles s else s in
  let s := updateParticles random s in
  let s := occludeParticles s in
  let s :=
    if colorDirty s then
      let s := set_particlesMesh (set_colorNeedsUpdate true (particlesMesh s)) s in
      set_colorDirty false s
    else s in
  animateMesh s.

(** A run of updateParticles ticks: before each tick the rest of the page
    may have rewritten the targets (a shape generator), and each tick has
    its own Math.random() calls. *)
Record TickInput : Type := mkTickInput {
  tick_targets : list R;
  tick_random : nat -> R
}.

Fixpoint runTicks (ticks : list TickInput) (s : State) : State :=
  match ticks with
  | [] => s
  | t :: rest =>
      runTicks rest (updateParticles (tick_random t) (set_targets (tick_targets t) s))
  end.

(** Particle [i] is unforced in state [s]: no hand, no explosion, and its
    target (in a target buffer of the allocated size) is where it is. *)
Definition unforced (i : nat) (s : State) : Prop :=
  length (targets s) = (PARTICLE_COUNT * 3)%nat /\
  handPresent s = false /\ isExploding s = false /\
  forall c, (c < 3)%nat ->
    targets s !!! (i * 3 + c)%nat = positions s !!! (i * 3 + c)%nat.

(** Particle [i] is unforced at every tick of the run. *)
Fixpoint unforced_run (i : nat) (ticks : list TickInput) (s : State) : Prop :=
  match ticks with
  | [] => True
  | t :: rest =>
      unforced i (set_targets (tick_targets t) s) /\
      unforced_run i rest (updateParticles (tick_random t) (set_targets (tick_targets t) s))
  end.

End Engine.

(* ================================================================== *)
(** * particleSystem.js: the text shape generator *)

(** generateText works on pixel coordinates and font sizes that are exact
    decimal fractions; they are modelled as rationals, and become reals
    when they are stored in the target buffer. *)

(** The layout chosen from the window width. *)
Record TextLayout : Type := mkTextLayout {
  baseFontSize : Q;
  baseScale : Q;
  baseCanvasWidth : Z;
  baseCanvasHeight : Z;
  samplingStep : Q;
  lineHeight : Q;
  needWrap : bool
}.

Definition textSingleLine : string := "I LOVE WORLD".
(** [textMultiLine.split('\n')], each line trimmed. *)
Definition textMultiLines : list string := ["I"; "LOVE"; "WORLD"]%string.

(** The chain of [if (width < ...)] that opens generateText. *)
Definition layoutForWidth (width : Z) : TextLayout :=
  if (width <? 480)%Z then mkTextLayout 40 0.05 640 200 2.6 52 true
  else if (width <? 768)%Z then mkTextLayout 46 0.048 760 220 2.3 60 true
  else if (width <? 1024)%Z then mkTextLayout 54 0.052 820 240 1.9 70 true
  else if (width <? 1920)%Z then mkTextLayout 56 0.05 800 256 2 75 false
  else mkTextLayout 66 0.055 900 280 2 85 false.

(** What is drawn on the offscreen canvas: its size, the font size and the
    lines with the point each is centred on. *)
Record CanvasJob : Type := mkCanvasJob {
  job_width : Z;
  job_height : Z;
  job_fontSize : Q;
  job_lines : list (string * Q * Q)
}.

(** A sampled foreground pixel, scaled to world units. *)
Record TextPoint : Type := mkTextPoint { tp_x : Q; tp_y : Q }.

(** [for (let v = start; v < limit; v += step)]: the values [v] takes.  The
    loop ends because [step] is positive; [fuel] bounds its length. *)
Fixpoint stepped (fuel : nat) (v limit step : Q) : list Q :=
  match fuel with
  | O => []
  | S fuel' =>
      if Qlt_le_dec v limit then v :: stepped fuel' (v + step)%Q limit step else []
  end.

(** Enough fuel for the loop from 0 to [limit]: one more than
    [limit / step] rounded up. *)
Definition steps_fuel (limit step : Q) : nat :=
  S (Z.to_nat (Qceiling (limit / step)%Q)).

Section TextShape.

Variable PARTICLE_COUNT : nat.

(** [ctx.measureText(text).width] under the font [bold <size>px Arial]. *)
Variable measureText : Q -> string -> Q.

(** [ctx.getImageData(0, 0, w, h).data] after the canvas was painted black
    and the job drawn in white: the byte at each index. *)
Variable getImageData : CanvasJob -> Z -> Z.

(** The block under [if (width >= 1024 && !needWrap)]: on a wide window
    the single line is measured, and the font and scale are fitted to a
    world width of 18, or the text is wrapped.  A measured width of 0 makes
    the two quotients +Infinity, and the minimum with it is the other
    operand. *)
Definition fitLayout (width : Z) (l : TextLayout) : TextLayout :=
  if (1024 <=? width)%Z && negb (needWrap l) then
    let textWidth := measureText (baseFontSize l) textSingleLine in
    let max3DWidth : Q := 18%Q in
    let scaled3DWidth := (textWidth * baseScale l)%Q in
    if Qlt_le_dec max3DWidth scaled3DWidth then
      mkTextLayout (baseFontSize l) (baseScale l) (baseCanvasWidth l)
        (baseCanvasHeight l) (samplingStep l) (lineHeight l) true
    else if (1920 <=? width)%Z then
      let widthShare := Qfloor (inject_Z width / 30)%Q in
      let calculatedFontSize :=
        if Qeq_bool textWidth 0%Q then widthShare
        else
          let maxFontSize :=
            Qfloor ((max3DWidth / baseScale l) * (baseFontSize l / textWidth))%Q in
          Z.min maxFontSize widthShare in
      let baseFontSize' := inject_Z (Z.min 80 calculatedFontSize) in
      let textWidth := measureText baseFontSize' textSingleLine in
      let baseScale' :=
        if Qeq_bool textWidth 0%Q then 0.08%Q
        else
          let maxScale := (max3DWidth / textWidth)%Q in
          Qmin 0.08%Q (maxScale * 0.95)%Q in
      let needWrap' :=
        if Qlt_le_dec max3DWidth (textWidth * baseScale')%Q then true else needWrap l in
      mkTextLayout baseFontSize' baseScale' (baseCanvasWidth l)
        (baseCanvasHeight l) (samplingStep l) (lineHeight l) needWrap'
    else l
  else l.

(** The canvas and what is drawn on it: one centred line, or the three
    lines [lineHeight] apart around the centre. *)
Definition canvasJob (l : TextLayout) : CanvasJob :=
  let canvasWidth := baseCanvasWidth l in
  let canvasHeight :=
    if needWrap l then (baseCanvasHeight l + 60)%Z else baseCanvasHeight l in
  let centerX := (inject_Z canvasWidth / 2)%Q in
  let centerY := (inject_Z canvasHeight / 2)%Q in
  let lines :=
    if needWrap l then
      let n := length textMultiLines in
      let startY := (centerY - inject_Z (Z.of_nat n - 1) * lineHeight l / 2)%Q in
      imap (fun index line =>
              (line, centerX, (startY + inject_Z (Z.of_nat index) * lineHeight l)%Q))
           textMultiLines
    else [(textSingleLine, centerX, centerY)] in
  mkCanvasJob canvasWidth canvasHeight (baseFontSize l) lines.

(** The two sampling loops: the foreground pixels (red byte above 128) met
    on the grid of step [samplingStep], as points. *)
Definition collectValidPoints (l : TextLayout) (job : CanvasJob) (data : Z -> Z)
  : list TextPoint :=
  let w := inject_Z (job_width job) in
  let h := inject_Z (job_height job) in
  let step := samplingStep l in
  flat_map
    (fun y =>
       flat_map
         (fun x =>
            let index := ((Qfloor y * job_width job + Qfloor x) * 4)%Z in
            if (128 <? data index)%Z
            then [mkTextPoint ((x - w / 2) * baseScale l)%Q (- (y - h / 2) * baseScale l)%Q]
            else [])
         (stepped (steps_fuel w step) 0%Q w step))
    (stepped (steps_fuel h step) 0%Q h step).

(** The loop that fills the targets.  [validPoints[i % len]]
    is [undefined] when the index is outside the array, and reading
    [point.x] of it throws a TypeError: the result is then [None]. *)
Definition fillTextTargets (validPoints : list TextPoint) (random : nat -> R)
    (tgt : list R) : option (list R) :=
  let len := if decide (length validPoints = 0%nat) then 1%nat else length validPoints in
  for_loop PARTICLE_COUNT
    (fun i acc =>
       tgt ← acc;
       point ← validPoints !! (i mod len)%nat;
       let idx := (i * 3)%nat in
       let tgt := <[idx := Q2R (tp_x point)]> tgt in
       let tgt := <[(idx + 1)%nat := Q2R (tp_y point)]> tgt in
       Some (<[(idx + 2)%nat := (random i - 0.5) * 1]> tgt))
    (Some tgt).

(** [generateText()], for a window of inner width [width]: the state with
    the targets filled, or [None] when the call throws. *)
Definition generateText (width : Z) (random : nat -> R) (s : State) : option State :=
  let layout := fitLayout width (layoutForWidth width) in
  let job := canvasJob layout in
  let data := getImageData job in
  let validPoints := collectValidPoints layout job data in
  tgt ← fillTextTargets validPoints random (targets s);
  Some (set_targets tgt s).

End TextShape.

(* ================================================================== *)
(** * particleSystem.js: the shape generators *)

Section Shapes.

Variable PARTICLE_COUNT : nat.

(** [generateSphere()]. *)
Definition generateSphere (s : State) : State :=
  let tgt :=
    for_loop PARTICLE_COUNT
      (fun i tgt =>
         let phi := acos (-1 + (2 * INR i) / INR PARTICLE_COUNT) in
         let theta := sqrt (INR PARTICLE_COUNT * PI) * phi in
         let r := 4 in
         let idx := (i * 3)%nat in
         let tgt := <[idx := r * cos theta * sin phi]> tgt in
         let tgt := <[(idx + 1)%nat := r * sin theta * sin phi]> tgt in
         <[(idx + 2)%nat := r * cos phi]> tgt)
      (targets s) in
  set_targets tgt s.

(** [generateRing()].  [random i] is the value of the call of
    Math.random() made for particle [i]. *)
Definition generateRing (random : nat -> R) (s : State) : State :=
  let tgt :=
    for_loop PARTICLE_COUNT
      (fun i tgt =>
         let theta := (INR i / INR PARTICLE_COUNT) * PI * 2 in
         let R := 4 in
         let r := 1 in
         let tubeAngle := random i * PI * 2 in
         let idx := (i * 3)%nat in
         let tgt := <[idx := (R + r * cos tubeAngle) * cos theta]> tgt in
         let tgt := <[(idx + 1)%nat := (R + r * cos tubeAngle) * sin theta]> tgt in
         <[(idx + 2)%nat := r * sin tubeAngle]> tgt)
      (targets s) in
  set_targets tgt s.

(** [generateStar()]. *)
Definition generateStar (random : nat -> R) (s : State) : State :=
  let tgt :=
    for_loop PARTICLE_COUNT
      (fun i tgt =>
         let theta := (INR i / INR PARTICLE_COUNT) * PI * 2 in
         let rBase := 4 in
         let k := 5 in
         let r := rBase * (1 + 0.5 * cos (k * theta)) in
         let z := (random i - 0.5) * 2 in
         let idx := (i * 3)%nat in
         let tgt := <[idx := r * cos theta]> tgt in
         let tgt := <[(idx + 1)%nat := r * sin theta]> tgt in
         <[(idx + 2)%nat := z]> tgt)
      (targets s) in
  set_targets tgt s.

(** [generateHeart()]. *)
Definition generateHeart (random : nat -> R) (s : State) : State :=
  let tgt :=
    for_loop PARTICLE_COUNT
      (fun i tgt =>
         let t := (INR i / INR PARTICLE_COUNT) * PI * 2 in
         let x := 16 * sin t ^ 3 in
         let y := 13 * cos t - 5 * cos (2 * t) - 2 * cos (3 * t) - cos (4 * t) in
         let scale := 0.3 in
         let z := (random i - 0.5) * 2 in
         let idx := (i * 3)%nat in
         let tgt := <[idx := x * scale]> tgt in
         let tgt := <[(idx + 1)%nat := y * scale]> tgt in
         <[(idx + 2)%nat := z]> tgt)
      (targets s) in
  set_targets tgt s.

End Shapes.

(* ================================================================== *)
(** * Quantities the properties are stated with *)

(** Component [c] (0, 1 or 2) of a vector. *)
Definition component (c : nat) (v : Vector3) : R :=
  match c with
  | O => vx v
  | S O => vy v
  | _ => vz v
  end.

(** The squared distance of particle [i] of a position array from a
    point, and its offset from the point along axis [c]. *)
Definition offset (pos : list R) (center : Vector3) (i c : nat) : R :=
  pos !!! (i * 3 + c)%nat - component c center.
Definition distSqOf (pos : list R) (center : Vector3) (i : nat) : R :=
  offset pos center i 0 * offset pos center i 0
  + offset pos center i 1 * offset pos center i 1
  + offset pos center i 2 * offset pos center i 2.

(** What one tick adds to velocity component [c] of particle [i] before
    damping: the hand force, the explosion jitter and the spring. *)
Definition handTerm (s : State) (i c : nat) : R :=
  if handPresent s
  then - (offset (positions s) (handCentroid s) i c
          * handForce (dynamicRadius s) (distSqOf (positions s) (handCentroid s) i))
  else 0.
Definition explosionTerm (s : State) (random : nat -> R) (i c : nat) : R :=
  if isExploding s then (random (i * 3 + c)%nat - 0.5) * EXPLOSION_FORCE else 0.
Definition springTerm (s : State) (i c : nat) : R :=
  (targets s !!! (i * 3 + c)%nat - positions s !!! (i * 3 + c)%nat) * RETURN_SPEED.

(** Velocity component [c] of particle [i] after one tick. *)
Definition tickedVelocity (s : State) (random : nat -> R) (i c : nat) : R :=
  (velocities s !!! (i * 3 + c)%nat
   + handTerm s i c + explosionTerm s random i c + springTerm s i c) * DAMPING.

(** The speed of particle [i]: the Euclidean norm of its velocity. *)
Definition speedOf (vel : list R) (i : nat) : R :=
  sqrt (vel !!! (i * 3)%nat * vel !!! (i * 3)%nat
        + vel !!! (i * 3 + 1)%nat * vel !!! (i * 3 + 1)%nat
        + vel !!! (i * 3 + 2)%nat * vel !!! (i * 3 + 2)%nat).

(** The Euclidean distance of particle [k] from a point. *)
Definition distOf (pos : list R) (center : Vector3) (k : nat) : R :=
  sqrt (distSqOf pos center k).

(** The radius of the depth push around the hand. *)
Definition pushRadius (handRadius : R) : R := Rmax (handRadius * 1.2) EPS.

(** The push of applyDepthPushToParticles on axis [c] of particle [k] as
    the code computes it: direction and falloff both use the distance
    padded by [EPS]. *)
Definition depthPush (pos : list R) (center : Vector3) (handRadius pushStrength : R)
    (k c : nat) : R :=
  let dist := distOf pos center k + EPS in
  (offset pos center k c / dist) * ((1 - dist / pushRadius handRadius) * pushStrength).

(** The push as the specification words it: magnitude
    [(1 - dist / radius) * pushStrength] along the unit vector from the
    centroid to the particle, [dist] the distance itself. *)
Definition radialPush (pos : list R) (center : Vector3) (handRadius pushStrength : R)
    (k c : nat) : R :=
  let dist := distOf pos center k in
  (offset pos center k c / dist) * ((1 - dist / pushRadius handRadius) * pushStrength).

(** ** Occlusion, particle by particle *)

(** The lateral radius of the occlusion around the hand. *)
Definition occlusionRadius (handRadius : R) : R := Rmax (handRadius * 1.25) EPS.

(** Particle [i] is faded in this call: the hand is present, the depth
    offset of the particle from the hand is positive ([dz > 0]) and the
    particle is within the lateral radius. *)
Definition occluded (posArray : list R) (handCenter : Vector3) (handRadius : R)
    (handPresent : bool) (i : nat) : Prop :=
  handPresent = true /\
  0 < offset posArray handCenter i 2 /\
  offset posArray handCenter i 0 * offset posArray handCenter i 0
  + offset posArray handCenter i 1 * offset posArray handCenter i 1
  <= occlusionRadius handRadius * occlusionRadius handRadius.

#[global] Instance occluded_dec posArray handCenter handRadius handPresent i :
  Decision (occluded posArray handCenter handRadius handPresent i).
Proof. unfold occluded. apply _. Defined.

(** The fade the call computes for an occluded particle. *)
Definition fadeOf (posArray : list R) (handCenter : Vector3) (handRadius maxFade : R)
    (i : nat) : R :=
  let dx := offset posArray handCenter i 0 in
  let dy := offset posArray handCenter i 1 in
  let dz := offset posArray handCenter i 2 in
  let dist := sqrt (dx * dx + dy * dy) + EPS in
  let radialFactor := 1 - dist / occlusionRadius handRadius in
  let depthFactor :=
    if decide (handRadius * 1.5 + EPS = 0) then 1
    else Rmin 1 (dz / (handRadius * 1.5 + EPS)) in
  1 - Rmin maxFade (radialFactor * depthFactor * maxFade).

(** [occlusionFactors[i] || 1]. *)
Definition prevFadeOf (factor : R) : R := if decide (factor = 0) then 1 else factor.

(** The factor and the color the call stores for particle [i], from the
    factor and the color it finds. *)
Definition nextFactor (posArray : list R) (handCenter : Vector3) (handRadius : R)
    (handPresent : bool) (maxFade : R) (i : nat) (factor : R) : R :=
  let prevFade := prevFadeOf factor in
  let fade := fadeOf posArray handCenter handRadius maxFade i in
  if decide (occluded posArray handCenter handRadius handPresent i)
  then if decide (Rabs (fade - prevFade) > 1e-3) then fade else factor
  else if decide (prevFade <> 1) then 1 else factor.

Definition nextColor (posArray : list R) (handCenter : Vector3) (handRadius : R)
    (handPresent : bool) (maxFade : R) (i : nat) (factor color : R) : R :=
  let prevFade := prevFadeOf factor in
  let fade := fadeOf posArray handCenter handRadius maxFade i in
  if decide (occluded posArray handCenter handRadius handPresent i)
  then if decide (Rabs (fade - prevFade) > 1e-3) then (color / prevFade) * fade else color
  else if decide (prevFade <> 1) then color / prevFade else color.

(** The factors the loop starts from: all 1 when the version token moved. *)
Definition startFactors (occlusionFactors : list R) (opts : OcclusionOpts) : list R :=
  if decide (opt_lastColorVersionApplied opts <> opt_colorVersion opts)
  then replicate (length occlusionFactors) 1
  else occlusionFactors.

(* ================================================================== *)
(** * Further quantities the properties are stated with *)

(** The image transformations under which the classifier is unchanged:
    [x] is scaled by [sx] and shifted, [y] is scaled by [a] and shifted,
    with [|sx| = a > 0], and the depth is replaced by anything. *)
Definition reframe (sx a bx by_ : R) (depth : Landmark -> R) (p : Landmark) : Landmark :=
  mkLandmark (sx * lx p + bx) (a * ly p + by_) (depth p).

(** ** Target triples *)

(** The three writes that end an iteration of a shape generator. *)
Definition writeTriple (i : nat) (x y z : R) (a : list R) : list R :=
  <[(i * 3 + 2)%nat := z]> (<[(i * 3 + 1)%nat := y]> (<[(i * 3)%nat := x]> a)).

(** Particle [i] of a buffer of triples, as a vector. *)
Definition tripleAt (a : list R) (i : nat) : Vector3 :=
  mkVector3 (a !!! (i * 3)%nat) (a !!! (i * 3 + 1)%nat) (a !!! (i * 3 + 2)%nat).

(** The distance of a point from the z axis. *)
Definition planarRadius (p : Vector3) : R := sqrt (vx p * vx p + vy p * vy p).

(* ================================================================== *)
(** * Sample inputs *)

(** The state config.js starts from, before any particle is allocated. *)
Definition idle_state : State :=
  mkState (mkMesh vzero (mkVector3 1 1 1) vzero false false)
    [] [] [] [] Sphere false vzero false 1 0 vzero 0 [] None true 0 0 1 [] 0 0 false.


(** One particle in the particle color, with the occlusion factor 1 it
    starts with, and the options of a call with the hand present. *)
Definition cyan_particle : list R := [0; 1; 1].
Definition initial_factors : list R := [1].
Definition hand_present_opts : OcclusionOpts := mkOcclusionOpts true 0.75 0 0.
(** The particle a hair (EPS) to the side of a hand of radius 0, at depth
    offset 1 from it. *)
Definition pinpoint_positions : list R := [1e-6; 0; 1].

(** A desktop window 1280 pixels wide on a low-power device: 12000 * 0.55
    particles, their targets allocated. *)
Definition desktop_particles : nat := Z.to_nat 6600.
Definition desktop_state : State :=
  set_targets (replicate (desktop_particles * 3) 0) idle_state.
(** A canvas on which no text was rendered: every byte is 0. *)
Definition blank_canvas : CanvasJob -> Z -> Z := fun _ _ => 0%Z.
Definition sample_measureText : Q -> string -> Q := fun size _ => (size * 7)%Q.

(** A frame of 21 landmarks, all at the centre of the image. *)
Definition centred_frame : list Landmark := replicate 21 (mkLandmark 0.5 0.5 0).

(** A hand that was seen at time 100 and is still marked present, with the
    mesh following it. *)
Definition stale_hand_state : State :=
  set_followVelocity (mkVector3 0.1 0.2 0)
    (set_handPresent true
       (mkState (mkMesh vzero (mkVector3 1 1 1) vzero false false)
          [] [] [] [] Sphere false vzero false 1 100 vzero 0 [] None true 0 0 1
          [] 0 0 false)).
Definition no_color : R -> R -> R -> R * R * R := fun _ _ _ => (0, 0, 0).
Definition no_jitter : nat -> R := fun _ => 0.5.

(** One particle at the origin moving along x, no hand, no explosion. *)
Definition coasting_state : State :=
  set_velocities [1; 0; 0] (set_positions [0; 0; 0] (set_targets [0; 0; 0] idle_state)).
(** Two ticks whose targets are where the particle is. *)
Definition coasting_ticks : list TickInput :=
  [mkTickInput [0; 0; 0] no_jitter; mkTickInput [0.92; 0; 0] no_jitter].

(** One particle at distance 1 from a hand at the origin, at rest on its
    target. *)
Definition near_hand_state : State :=
  set_handPresent true
    (set_occlusionFactors [1]
       (set_colors [0; 1; 1]
          (set_velocities [0; 0; 0]
             (set_positions [1; 0; 0] (set_targets [1; 0; 0] idle_state))))).

(** One particle whose stored color carries a stale fade of one half, and
    the base colors an external actor writes over it. *)
Definition faded_state : State :=
  set_occlusionFactors [0.5]
    (set_colors [0.1; 0.2; 0.3] (set_positions [0; 0; 0] idle_state)).
Definition fresh_base : list R := [0.2; 0.4; 0.6].

(** The same stale particle at depth offset 1 from a present hand of radius
    1 at the origin, on the axis of the hand: the next occlusion call
    fades it. *)
Definition shadowed_state : State :=
  set_handPresent true
    (set_occlusionFactors [0.5]
       (set_colors [0.1; 0.2; 0.3] (set_positions [0; 0; 1] idle_state))).

(** Particles on the x axis, for the depth push around a hand of radius 1
    at the origin (push radius 1.2): one well inside, one within EPS of
    the boundary. *)
Definition inside_positions : list R := [1; 0; 0].
Definition boundary_positions : list R := [1.1999995; 0; 0].
Definition at_rest : list R := [0; 0; 0].

(** A hand of radius 1 at the origin (lateral radius 1.25) and one particle
    at depth offset 1 from it: first on the axis of the hand, then on the
    rim of the lateral radius. *)
Definition axis_positions : list R := [0; 0; 1].
Definition rim_positions : list R := [1.25; 0; 1].

(** An open palm drawn on the vertical line x = 0.5 (y grows downward):
    the wrist at y = 0.9, the thumb joints at 0.8, 0.7 and 0.6, and for
    each finger the base, the middle joints and the tip at 0.6, 0.5, 0.4
    and 0.3. *)
Definition on_line (y : R) : Landmark := mkLandmark 0.5 y 0.
Definition open_palm_frame : list Landmark :=
  [ on_line 0.9;
    on_line 0.85; on_line 0.8; on_line 0.7; on_line 0.6;
    on_line 0.6; on_line 0.5; on_line 0.4; on_line 0.3;
    on_line 0.6; on_line 0.5; on_line 0.4; on_line 0.3;
    on_line 0.6; on_line 0.5; on_line 0.4; on_line 0.3;
    on_line 0.6; on_line 0.5; on_line 0.4; on_line 0.3 ].

(* ================================================================== *)
(** * Further sample inputs *)

(** Twelve raw labels, one per hand result, oldest first. *)
Definition twelve_labels : list RawGesture :=
  [Some Star; Some Star; None; Some Heart; Some Heart; Some Heart;
   Some Ring; None; Some Text; Some Text; Some Text; Some Sphere].

(** Two particles with their targets allocated. *)
Definition two_particles : State := set_targets [0; 0; 0; 0; 0; 0] idle_state.

(* ================================================================== *)
(** * Properties of the stabilizer *)

Section StabilizerFacts.
Import Gesture.

Lemma last_three_split {A : Type} (h : list A) :
  (3 <= length h)%nat -> exists pre a b c, h = pre ++ [a; b; c].
Proof.
  intros Hlen.
  exists (take (length h - 3) h).
  pose proof (take_drop (length h - 3) h) as Hsplit.
  assert (Hd : length (drop (length h - 3) h) = 3%nat) by (rewrite length_drop; lia).
  destruct (drop (length h - 3) h) as [|a [|b [|c [|? ?]]]]; simpl in Hd; try lia.
  exists a, b, c. symmetry. exact Hsplit.
Qed.

Lemma slice_last_three {A : Type} (pre : list A) (a b c : A) :
  slice_last 3 (pre ++ [a; b; c]) = [a; b; c].
Proof.
  unfold slice_last. rewrite length_app. simpl.
  replace (length pre + 3 - 3)%nat with (length pre) by lia.
  apply drop_app_length.
Qed.

Lemma stable_run_three (pre : list RawGesture) (a b c : RawGesture) (l : GestureShape) :
  stable_run (pre ++ [a; b; c]) l <-> a = Some l /\ b = Some l /\ c = Some l.
Proof.
  unfold stable_run. rewrite length_app. simpl. split.
  - intros [_ H].
    pose proof (H 2%nat ltac:(lia)) as H2.
    pose proof (H 1%nat ltac:(lia)) as H1.
    pose proof (H 0%nat ltac:(lia)) as H0.
    clear H.
    rewrite lookup_app_r in H2 by lia.
    rewrite lookup_app_r in H1 by lia.
    rewrite lookup_app_r in H0 by lia.
    replace (length pre + 3 - 1 - 2 - length pre)%nat with 0%nat in H2 by lia.
    replace (length pre + 3 - 1 - 1 - length pre)%nat with 1%nat in H1 by lia.
    replace (length pre + 3 - 1 - 0 - length pre)%nat with 2%nat in H0 by lia.
    simpl in *. repeat split; congruence.
  - intros (-> & -> & ->). split; [lia|].
    intros k Hk. rewrite lookup_app_r by lia.
    destruct k as [|[|[|k]]]; try lia.
    + replace (length pre + 3 - 1 - 0 - length pre)%nat with 2%nat by lia. reflexivity.
    + replace (length pre + 3 - 1 - 1 - length pre)%nat with 1%nat by lia. reflexivity.
    + replace (length pre + 3 - 1 - 2 - length pre)%nat with 0%nat by lia. reflexivity.
Qed.

Lemma stable_run_short (h : list RawGesture) (l : GestureShape) :
  (length h < 3)%nat -> ~ stable_run h l.
Proof. intros Hlt [Hge _]. lia. Qed.

(** Evicting the oldest entry of an over-long history keeps the verdict. *)
Lemma stable_run_tail (h : list RawGesture) (l : GestureShape) :
  (GESTURE_HISTORY_SIZE < length h)%nat ->
  stable_run (tail h) l <-> stable_run h l.
Proof.
  unfold GESTURE_HISTORY_SIZE. intros Hlen.
  destruct h as [|x h]; simpl in *; [lia|].
  destruct (last_three_split h ltac:(lia)) as (pre & a & b & c & ->).
  rewrite stable_run_three.
  change (x :: pre ++ [a; b; c]) with ((x :: pre) ++ [a; b; c]).
  rewrite stable_run_three. reflexivity.
Qed.

Lemma getStableGesture_history (g : RawGesture) (s : State) :
  history_after g s =
  if decide (GESTURE_HISTORY_SIZE < length (gestureHistory s ++ [g]))%nat
  then tail (gestureHistory s ++ [g]) else gestureHistory s ++ [g].
Proof.
  unfold history_after, getStableGesture.
  repeat (case_decide || case_match); reflexivity.
Qed.

Lemma getStableGesture_step (g : RawGesture) (s : State) (l : GestureShape) :
  (getStableGesture g s).1 = Some l <->
  stable_run (history_after g s) l /\ l <> currentShape s.
Proof.
  rewrite getStableGesture_history. unfold getStableGesture.
  set (history := if decide (GESTURE_HISTORY_SIZE < length (gestureHistory s ++ [g]))%nat
                  then tail (gestureHistory s ++ [g]) else gestureHistory s ++ [g]).
  destruct (decide (length history < GESTURE_STABILITY_FRAMES)%nat) as [Hshort|Hlong].
  - simpl. split; [discriminate|].
    intros [Hrun _]. exfalso. exact (stable_run_short _ _ Hshort Hrun).
  - unfold GESTURE_STABILITY_FRAMES in *.
    destruct (last_three_split history ltac:(lia)) as (pre & a & b & c & Hh).
    rewrite Hh, slice_last_three, stable_run_three. simpl.
    destruct a as [fg|]; simpl.
    + rewrite bool_decide_eq_true_2 by reflexivity. simpl.
      destruct (bool_decide (b = Some fg)) eqn:Hb; simpl;
        [apply bool_decide_eq_true in Hb | apply bool_decide_eq_false in Hb].
      * destruct (bool_decide (c = Some fg)) eqn:Hc; simpl;
          [apply bool_decide_eq_true in Hc | apply bool_decide_eq_false in Hc].
        -- destruct (decide (fg <> currentShape s)) as [Hne|Heq]; simpl.
           ++ split.
              ** intros [= ->]. auto.
              ** intros ((Ha & _ & _) & _). congruence.
           ++ split; [discriminate|].
              intros ((Ha & _ & _) & Hne). exfalso. apply Heq. congruence.
        -- split; [discriminate|].
           intros ((Ha & _ & Hc') & _). exfalso. apply Hc. congruence.
      * split; [discriminate|].
        intros ((Ha & Hb' & _) & _). exfalso. apply Hb. congruence.
    + split; [discriminate|]. intros ((Ha & _ & _) & _). discriminate.
Qed.

Lemma getStableGesture_pushed (g : RawGesture) (s : State) (l : GestureShape) :
  stable_run (history_after g s) l <-> stable_run (gestureHistory s ++ [g]) l.
Proof.
  rewrite getStableGesture_history. case_decide; [|reflexivity].
  apply stable_run_tail. assumption.
Qed.

End StabilizerFacts.

(** C1.  Whatever sequence of raw labels the stabilizer has been fed, its
    next call returns the commit [l] exactly when the history, after the
    newest label is pushed, holds at least three entries, its three most
    recent entries all equal the non-null label [l], and [l] differs from
    State.currentShape; in every other case it returns null.  Evicting the
    oldest entry does not change the verdict. *)
Theorem getStableGesture_commits_exactly_on_stable_run
  (s0 : State) (gs : list RawGesture) (g : RawGesture) :
  let s := Gesture.feedGestures gs s0 in
  let commit := (Gesture.getStableGesture g s).1 in
  (forall l, commit = Some l <->
             Gesture.stable_run (Gesture.history_after g s) l /\ l <> currentShape s) /\
  (commit = None <->
   ~ exists l, Gesture.stable_run (Gesture.history_after g s) l /\ l <> currentShape s) /\
  (forall l, Gesture.stable_run (Gesture.history_after g s) l <->
             Gesture.stable_run (gestureHistory s ++ [g]) l).
Proof.
  intros s commit. split; [|split].
  - intros l. apply getStableGesture_step.
  - split.
    + intros Hnone (l & Hl). apply getStableGesture_step in Hl.
      unfold commit in Hnone. congruence.
    + intros Hno. destruct commit as [l|] eqn:Hc; [|reflexivity].
      exfalso. apply Hno. exists l. apply getStableGesture_step. exact Hc.
  - intros l. apply getStableGesture_pushed.
Qed.

(** The histories the specification names, run on the code from an empty
    history with the sphere committed: [A,A,A] commits A; [A,A], [A,B,A],
    three nulls and a run of the committed shape commit nothing. *)
Example stabilizer_run_of_three_commits :
  (Gesture.getStableGesture (Some Star)
     (Gesture.feedGestures [Some Star; Some Star] idle_state)).1 = Some Star.
Proof. reflexivity. Qed.

Example stabilizer_run_of_two_is_silent :
  (Gesture.getStableGesture (Some Star)
     (Gesture.feedGestures [Some Star] idle_state)).1 = None.
Proof. reflexivity. Qed.

Example stabilizer_broken_run_is_silent :
  (Gesture.getStableGesture (Some Star)
     (Gesture.feedGestures [Some Star; Some Heart] idle_state)).1 = None.
Proof. reflexivity. Qed.

Example stabilizer_null_run_is_silent :
  (Gesture.getStableGesture None
     (Gesture.feedGestures [None; None] idle_state)).1 = None.
Proof. reflexivity. Qed.

Example stabilizer_current_shape_is_silent :
  (Gesture.getStableGesture (Some Sphere)
     (Gesture.feedGestures [Some Sphere; Some Sphere] idle_state)).1 = None.
Proof. reflexivity. Qed.

(** A fourth identical frame after a commit is silent: the label is now the
    committed one. *)
Example stabilizer_commits_once :
  (Gesture.getStableGesture (Some Star)
     (Gesture.feedGestures [Some Star; Some Star; Some Star] idle_state)).1 = None.
Proof. reflexivity. Qed.

Section HistoryFacts.
Import Gesture.

Lemma stabilize_history (g : RawGesture) (s : State) :
  gestureHistory (stabilize g s) = history_after g s.
Proof.
  transitivity (history_after g (set_lastDetectedGesture g s)).
  - unfold stabilize, history_after. cbv zeta.
    destruct (getStableGesture g (set_lastDetectedGesture g s)) as [[l|] s1];
      simpl; [|reflexivity].
    destruct (has_generator l); reflexivity.
  - rewrite !getStableGesture_history. reflexivity.
Qed.

Lemma feedGestures_snoc (gs : list RawGesture) (g : RawGesture) (s : State) :
  feedGestures (gs ++ [g]) s = stabilize g (feedGestures gs s).
Proof. unfold feedGestures. rewrite fold_left_app. reflexivity. Qed.

Lemma tail_drop {A : Type} (n : nat) (l : list A) : tail (drop n l) = drop (S n) l.
Proof.
  revert l. induction n as [|n IH]; intros [|x l]; simpl; try reflexivity.
  apply IH.
Qed.

(** The history is the last ten raw labels: the oldest is evicted on
    overflow. *)
Lemma feedGestures_history (gs : list RawGesture) (s : State) :
  (length (gestureHistory s) <= GESTURE_HISTORY_SIZE)%nat ->
  gestureHistory (feedGestures gs s)
  = slice_last GESTURE_HISTORY_SIZE (gestureHistory s ++ gs).
Proof.
  unfold GESTURE_HISTORY_SIZE. intros Hlen.
  induction gs as [|g gs IH] using rev_ind.
  - simpl. rewrite app_nil_r. unfold slice_last.
    replace (length (gestureHistory s) - 10)%nat with 0%nat by lia. reflexivity.
  - rewrite feedGestures_snoc, stabilize_history, getStableGesture_history, IH.
    unfold GESTURE_HISTORY_SIZE, slice_last.
    set (L := gestureHistory s ++ gs).
    rewrite app_assoc. fold L.
    rewrite !length_app, length_drop. simpl.
    destruct (decide (10 < length L - (length L - 10) + 1)%nat) as [Hfull|Hroom].
    + assert (Hge : (10 <= length L)%nat) by lia.
      replace (length L + 1 - 10)%nat with (S (length L - 10)) by lia.
      rewrite <- (drop_app_le L [g]) by lia.
      apply tail_drop.
    + replace (length L - 10)%nat with 0%nat by lia.
      replace (length L + 1 - 10)%nat with 0%nat by lia. reflexivity.
Qed.

Lemma feedGestures_history_bounded (gs : list RawGesture) (s : State) :
  (length (gestureHistory s) <= GESTURE_HISTORY_SIZE)%nat ->
  (length (gestureHistory (feedGestures gs s)) <= GESTURE_HISTORY_SIZE)%nat.
Proof.
  intros Hlen. rewrite feedGestures_history by assumption.
  unfold slice_last. rewrite length_drop. lia.
Qed.

End HistoryFacts.

(* ================================================================== *)
(** * Properties of the classifier *)

Section ClassifierFacts.
Import Gesture.

(** A frame of 21 landmarks has every landmark the classifier reads: the
    call returns. *)
Lemma digits_defined (landmarks : list Landmark) :
  length landmarks = 21%nat -> exists d, digits landmarks = Some d.
Proof.
  intros Hlen.
  do 21 (destruct landmarks as [|? landmarks]; [discriminate Hlen|]).
  unfold digits, isThumbUp, isExtended. simpl. eexists. reflexivity.
Qed.

(** The chain of returns is the first-match evaluation of the priority
    list. *)
Lemma selectLabel_first_match (d : Digits) :
  selectLabel d = first_match priority_rules d.
Proof. destruct d as [[] [] [] [] []]; reflexivity. Qed.

Lemma first_match_cases (d : Digits) :
  let label := first_match priority_rules d in
  (label = Some Text <-> text_pose d) /\
  (label = Some Star <-> star_pose d) /\
  (label = Some Heart <-> heart_pose d) /\
  (label = Some Sphere <-> fingersCount d = 5%nat) /\
  (label = Some Ring <-> fingersCount d = 0%nat) /\
  (label = None <->
     ~ text_pose d /\ ~ star_pose d /\ ~ heart_pose d /\
     fingersCount d <> 5%nat /\ fingersCount d <> 0%nat) /\
  label <> Some Dragon.
Proof.
  unfold text_pose, star_pose, heart_pose.
  destruct d as [[] [] [] [] []]; vm_compute;
    intuition (discriminate || lia || congruence).
Qed.

End ClassifierFacts.

(** C2.  On a frame of 21 landmarks recognizeGesture returns, and its label is
    the first match of the fixed priority list over the five per-digit
    predicates: Text for index and middle alone, else Star for the index
    alone, else Heart for the thumb alone, else Sphere for five digits,
    else Ring for none, else null.  The rules exclude one another, so
    Sphere is returned for every five-digit frame: neither the thumb-only
    nor the index-only rule can have matched before it. *)
Theorem recognizeGesture_first_match_priority (landmarks : list Landmark) :
  length landmarks = 21%nat ->
  exists d : Gesture.Digits,
    Gesture.digits landmarks = Some d /\
    Gesture.recognizeGesture landmarks
      = Some (Gesture.first_match Gesture.priority_rules d) /\
    let label := Gesture.first_match Gesture.priority_rules d in
    (label = Some Text <-> Gesture.text_pose d) /\
    (label = Some Star <-> Gesture.star_pose d) /\
    (label = Some Heart <-> Gesture.heart_pose d) /\
    (label = Some Sphere <-> Gesture.fingersCount d = 5%nat) /\
    (label = Some Ring <-> Gesture.fingersCount d = 0%nat) /\
    (label = None <->
       ~ Gesture.text_pose d /\ ~ Gesture.star_pose d /\ ~ Gesture.heart_pose d /\
       Gesture.fingersCount d <> 5%nat /\ Gesture.fingersCount d <> 0%nat) /\
    label <> Some Dragon.
Proof.
  intros Hlen.
  destruct (digits_defined landmarks Hlen) as [d Hd].
  exists d. split; [exact Hd|]. split.
  - unfold Gesture.recognizeGesture. rewrite Hd. simpl.
    rewrite selectLabel_first_match. reflexivity.
  - apply first_match_cases.
Qed.


(* ================================================================== *)
(** * Array cells *)

Lemma length_modify_at (i : nat) (f : R -> R) (a : list R) :
  length (modify_at i f a) = length a.
Proof. unfold modify_at. apply length_insert. Qed.

Lemma modify_at_eq (i : nat) (f : R -> R) (a : list R) :
  (i < length a)%nat -> modify_at i f a !!! i = f (a !!! i).
Proof. intros H. unfold modify_at. apply list_lookup_total_insert_eq. exact H. Qed.

Lemma modify_at_ne (i j : nat) (f : R -> R) (a : list R) :
  i <> j -> modify_at i f a !!! j = a !!! j.
Proof. intros H. unfold modify_at. apply list_lookup_total_insert_ne. exact H. Qed.

Ltac cells :=
  unfold add_at, sub_at, mul_at, div_at in *;
  repeat first
    [ rewrite modify_at_ne by lia
    | rewrite modify_at_eq by (rewrite ?length_modify_at; lia)
    | rewrite length_modify_at ].

(* ================================================================== *)
(** * One tick of the physics, particle by particle *)

Section PhysicsFacts.
Variable PARTICLE_COUNT : nat.

Lemma updateParticlesBody_spec (s : State) (random : nat -> R) (i : nat)
    (pos vel : list R) :
  (i * 3 + 2 < length pos)%nat -> (i * 3 + 2 < length vel)%nat ->
  (forall c, (c < 3)%nat ->
     pos !!! (i * 3 + c)%nat = positions s !!! (i * 3 + c)%nat /\
     vel !!! (i * 3 + c)%nat = velocities s !!! (i * 3 + c)%nat) ->
  let pv := updateParticlesBody (targets s) (dynamicRadius s) (handCentroid s)
              (handPresent s) (isExploding s) random i (pos, vel) in
  length pv.1 = length pos /\ length pv.2 = length vel /\
  (forall j, (j < i * 3 \/ i * 3 + 3 <= j)%nat ->
     pv.1 !!! j = pos !!! j /\ pv.2 !!! j = vel !!! j) /\
  (forall c, (c < 3)%nat ->
     pv.2 !!! (i * 3 + c)%nat = tickedVelocity s random i c /\
     pv.1 !!! (i * 3 + c)%nat
       = positions s !!! (i * 3 + c)%nat + tickedVelocity s random i c).
Proof.
  intros Hp Hv Hsame.
  destruct (Hsame 0%nat ltac:(lia)) as [Hp0 Hv0].
  destruct (Hsame 1%nat ltac:(lia)) as [Hp1 Hv1].
  destruct (Hsame 2%nat ltac:(lia)) as [Hp2 Hv2].
  rewrite Nat.add_0_r in Hp0, Hv0.
  unfold updateParticlesBody. cbv zeta.
  unfold tickedVelocity, handTerm, explosionTerm, springTerm, distSqOf, offset.
  simpl component. rewrite !Nat.add_0_r.
  destruct (handPresent s), (isExploding s); simpl fst; simpl snd.
  all: split; [cells; reflexivity|].
  all: split; [cells; reflexivity|].
  all: split; [intros j Hj; cells; split; reflexivity|].
  all: intros [|[|[|c]]] Hc; try lia; simpl component; rewrite ?Nat.add_0_r; cells.
  all: rewrite ?Hp0, ?Hp1, ?Hp2, ?Hv0, ?Hv1, ?Hv2; split; ring.
Qed.

Lemma updateParticles_loop (s : State) (random : nat -> R) (n : nat) :
  (n * 3 <= length (positions s))%nat -> (n * 3 <= length (velocities s))%nat ->
  let pv := for_loop n
              (updateParticlesBody (targets s) (dynamicRadius s) (handCentroid s)
                 (handPresent s) (isExploding s) random)
              (positions s, velocities s) in
  length pv.1 = length (positions s) /\ length pv.2 = length (velocities s) /\
  (forall j, (n * 3 <= j)%nat ->
     pv.1 !!! j = positions s !!! j /\ pv.2 !!! j = velocities s !!! j) /\
  (forall i c, (i < n)%nat -> (c < 3)%nat ->
     pv.2 !!! (i * 3 + c)%nat = tickedVelocity s random i c /\
     pv.1 !!! (i * 3 + c)%nat
       = positions s !!! (i * 3 + c)%nat + tickedVelocity s random i c).
Proof.
  induction n as [|n IH]; intros Hp Hv.
  - simpl. split; [reflexivity|]. split; [reflexivity|]. split.
    + intros; split; reflexivity.
    + intros; lia.
  - cbv zeta in *. cbn [for_loop].
    destruct IH as (Hlp & Hlv & Hrest & Hdone); [lia|lia|].
    destruct (for_loop n _ _) as [pos vel]. cbn [fst snd] in *.
    pose proof (updateParticlesBody_spec s random n pos vel) as Hbody.
    cbv zeta in Hbody.
    destruct Hbody as (Hlp' & Hlv' & Hout & Hin); [lia|lia| |].
    { intros c Hc. apply Hrest. lia. }
    split; [congruence|]. split; [congruence|]. split.
    + intros j Hj. destruct (Hout j ltac:(lia)) as [-> ->]. apply Hrest. lia.
    + intros i c Hi Hc.
      destruct (decide (i = n)) as [->|Hne].
      * apply Hin. exact Hc.
      * destruct (Hout (i * 3 + c)%nat ltac:(lia)) as [-> ->]. apply Hdone; lia.
Qed.

(** After updateParticles every particle has the ticked velocity, and has
    moved by it. *)
Lemma updateParticles_particle (s : State) (random : nat -> R) (i c : nat) :
  length (positions s) = (PARTICLE_COUNT * 3)%nat ->
  length (velocities s) = (PARTICLE_COUNT * 3)%nat ->
  (i < PARTICLE_COUNT)%nat -> (c < 3)%nat ->
  velocities (updateParticles PARTICLE_COUNT random s) !!! (i * 3 + c)%nat
    = tickedVelocity s random i c /\
  positions (updateParticles PARTICLE_COUNT random s) !!! (i * 3 + c)%nat
    = positions s !!! (i * 3 + c)%nat + tickedVelocity s random i c.
Proof.
  intros Hp Hv Hi Hc.
  pose proof (updateParticles_loop s random PARTICLE_COUNT) as Hloop.
  cbv zeta in Hloop.
  destruct Hloop as (_ & _ & _ & Hdone); [lia|lia|].
  unfold updateParticles.
  destruct (for_loop PARTICLE_COUNT _ _) as [pos vel]. simpl in *.
  apply Hdone; assumption.
Qed.

Lemma updateParticles_frame (random : nat -> R) (s : State) :
  handPresent (updateParticles PARTICLE_COUNT random s) = handPresent s /\
  isExploding (updateParticles PARTICLE_COUNT random s) = isExploding s /\
  targets (updateParticles PARTICLE_COUNT random s) = targets s /\
  dynamicRadius (updateParticles PARTICLE_COUNT random s) = dynamicRadius s /\
  handCentroid (updateParticles PARTICLE_COUNT random s) = handCentroid s.
Proof.
  unfold updateParticles. destruct (for_loop _ _ _) as [pos vel].
  repeat split; reflexivity.
Qed.

Lemma updateParticles_lengths (random : nat -> R) (s : State) :
  length (positions s) = (PARTICLE_COUNT * 3)%nat ->
  length (velocities s) = (PARTICLE_COUNT * 3)%nat ->
  length (positions (updateParticles PARTICLE_COUNT random s)) = (PARTICLE_COUNT * 3)%nat /\
  length (velocities (updateParticles PARTICLE_COUNT random s)) = (PARTICLE_COUNT * 3)%nat.
Proof.
  intros Hp Hv.
  pose proof (updateParticles_loop s random PARTICLE_COUNT) as Hloop.
  cbv zeta in Hloop.
  destruct Hloop as (Hlp & Hlv & _); [lia|lia|].
  unfold updateParticles.
  destruct (for_loop PARTICLE_COUNT _ _) as [pos vel]. simpl in *.
  split; congruence.
Qed.

End PhysicsFacts.


(* ================================================================== *)
(** * Properties of the frame scheduler *)

Section SchedulerFacts.
Variable PARTICLE_COUNT : nat.
Variable isLowPowerDevice : bool.
Variable setHSL : R -> R -> R -> R * R * R.

Lemma rainbowParticles_hand (s : State) :
  handPresent (rainbowParticles PARTICLE_COUNT setHSL s) = handPresent s /\
  followVelocity (rainbowParticles PARTICLE_COUNT setHSL s) = followVelocity s.
Proof. split; reflexivity. Qed.

Lemma updateParticles_hand (random : nat -> R) (s : State) :
  handPresent (updateParticles PARTICLE_COUNT random s) = handPresent s /\
  followVelocity (updateParticles PARTICLE_COUNT random s) = followVelocity s.
Proof.
  unfold updateParticles.
  destruct (for_loop _ _ _) as [pos vel]. split; reflexivity.
Qed.

Lemma occludeParticles_hand (s : State) :
  handPresent (occludeParticles s) = handPresent s /\
  followVelocity (occludeParticles s) = followVelocity s.
Proof. unfold occludeParticles. destruct (res_changed _); split; reflexivity. Qed.

Lemma animateMesh_hand (s : State) :
  handPresent (animateMesh s) = handPresent s /\
  followVelocity (animateMesh s) = followVelocity s.
Proof. unfold animateMesh. destruct (negb (handPresent s)); split; reflexivity. Qed.

End SchedulerFacts.

(** C3.  A render tick that observes [now - State.lastHandTimestamp > 800]
    ends with State.handPresent false and State.followVelocity the zero
    vector, whatever state the tick started from (so whether or not a hand
    result was delivered before it) and whatever the rest of the tick
    does. *)
Theorem animate_stale_hand_is_dropped
  (PARTICLE_COUNT : nat) (isLowPowerDevice : bool) (setHSL : R -> R -> R -> R * R * R)
  (now : R) (random : nat -> R) (s : State) :
  now - lastHandTimestamp s > 800 ->
  let s' := animate PARTICLE_COUNT isLowPowerDevice setHSL now random s in
  handPresent s' = false /\ followVelocity s' = vzero.
Proof.
  intros Hstale. cbv zeta. unfold animate.
  change (lastHandTimestamp (set_time (time s + 0.01) s)) with (lastHandTimestamp s).
  destruct (decide (now - lastHandTimestamp s > 800)) as [_|Hno]; [|contradiction].
  set (s1 := set_followVelocity vzero (set_handPresent false (set_time (time s + 0.01) s))).
  assert (H1 : handPresent s1 = false /\ followVelocity s1 = vzero) by (split; reflexivity).
  clearbody s1.
  match goal with
  | |- context [animateMesh ?x] => set (s5 := x)
  end.
  enough (H5 : handPresent s5 = false /\ followVelocity s5 = vzero).
  { destruct (animateMesh_hand s5) as [-> ->]. exact H5. }
  subst s5.
  set (s2 := if rainbowMode s1 then _ else s1).
  assert (H2 : handPresent s2 = false /\ followVelocity s2 = vzero).
  { subst s2. destruct (rainbowMode s1); [|exact H1].
    destruct (decide _); [|exact H1].
    destruct (decide _); exact H1. }
  clearbody s2. clear H1 s1.
  destruct H2 as [H2p H2v]. rewrite H2p.
  set (s3 := updateParticles PARTICLE_COUNT random s2).
  assert (H3 : handPresent s3 = false /\ followVelocity s3 = vzero).
  { subst s3. destruct (updateParticles_hand PARTICLE_COUNT random s2) as [-> ->].
    split; assumption. }
  clearbody s3.
  destruct (occludeParticles_hand s3) as [Hp Hv].
  destruct (colorDirty _); cbn; rewrite ?Hp, ?Hv; exact H3.
Qed.


(* ================================================================== *)
(** * Damping and the hand force field *)

Lemma DAMPING_range : 0 < DAMPING < 1.
Proof. unfold DAMPING. lra. Qed.

Lemma unforced_tick (PARTICLE_COUNT : nat) (random : nat -> R) (s : State) (i c : nat) :
  unforced PARTICLE_COUNT i s -> (c < 3)%nat ->
  tickedVelocity s random i c = velocities s !!! (i * 3 + c)%nat * DAMPING.
Proof.
  intros (_ & Hhand & Hexp & Htgt) Hc.
  unfold tickedVelocity, handTerm, explosionTerm, springTerm.
  rewrite Hhand, Hexp, (Htgt c Hc). ring.
Qed.

Lemma speed_scaled (vel vel' : list R) (i : nat) (k : R) :
  0 <= k ->
  (forall c, (c < 3)%nat -> vel' !!! (i * 3 + c)%nat = vel !!! (i * 3 + c)%nat * k) ->
  speedOf vel' i = speedOf vel i * k.
Proof.
  intros Hk Hc. unfold speedOf.
  pose proof (Hc 0%nat ltac:(lia)) as H0. rewrite Nat.add_0_r in H0.
  rewrite H0, (Hc 1%nat ltac:(lia)), (Hc 2%nat ltac:(lia)).
  set (a := vel !!! (i * 3)%nat). set (b := vel !!! (i * 3 + 1)%nat).
  set (d := vel !!! (i * 3 + 2)%nat).
  replace (a * k * (a * k) + b * k * (b * k) + d * k * (d * k))
    with ((a * a + b * b + d * d) * (k * k)) by ring.
  rewrite sqrt_mult_alt by nra.
  rewrite sqrt_square by exact Hk. reflexivity.
Qed.

(** C4.  DAMPING is 0.92, strictly between 0 and 1.  If on each of T
    consecutive ticks of updateParticles the hand is absent, nothing
    explodes and the target of particle [i] equals its position, then
    after the T ticks every velocity component of the particle is its
    initial value times DAMPING^T, and so is its speed. *)
Theorem damping_decays_velocity_geometrically
  (PARTICLE_COUNT : nat) (ticks : list TickInput) (s : State) (i : nat) :
  length (positions s) = (PARTICLE_COUNT * 3)%nat ->
  length (velocities s) = (PARTICLE_COUNT * 3)%nat ->
  (i < PARTICLE_COUNT)%nat ->
  unforced_run PARTICLE_COUNT i ticks s ->
  DAMPING = 0.92 /\ 0 < DAMPING < 1 /\
  (forall c, (c < 3)%nat ->
     velocities (runTicks PARTICLE_COUNT ticks s) !!! (i * 3 + c)%nat
     = velocities s !!! (i * 3 + c)%nat * DAMPING ^ length ticks) /\
  speedOf (velocities (runTicks PARTICLE_COUNT ticks s)) i
  = speedOf (velocities s) i * DAMPING ^ length ticks.
Proof.
  intros Hp Hv Hi Hrun.
  split; [reflexivity|]. split; [exact DAMPING_range|].
  assert (Hcomp : forall c, (c < 3)%nat ->
     velocities (runTicks PARTICLE_COUNT ticks s) !!! (i * 3 + c)%nat
     = velocities s !!! (i * 3 + c)%nat * DAMPING ^ length ticks).
  { revert s Hp Hv Hrun.
    induction ticks as [|t ticks IH]; intros s Hp Hv Hrun c Hc.
    - simpl. ring.
    - destruct Hrun as [Hquiet Hrun]. cbn [runTicks length].
      set (s0 := set_targets (tick_targets t) s) in *.
      destruct (updateParticles_lengths PARTICLE_COUNT (tick_random t) s0 Hp Hv)
        as [Hp1 Hv1].
      rewrite (IH _ Hp1 Hv1 Hrun c Hc).
      destruct (updateParticles_particle PARTICLE_COUNT s0 (tick_random t) i c
                  Hp Hv Hi Hc) as [-> _].
      rewrite (unforced_tick PARTICLE_COUNT _ _ _ _ Hquiet Hc).
      subst s0. simpl. ring. }
  split; [exact Hcomp|].
  apply speed_scaled; [|exact Hcomp].
  apply pow_le. pose proof DAMPING_range. lra.
Qed.

Section ForceFieldFacts.

Lemma ratio_in_unit (a b : R) : 0 <= a -> a < b -> 0 <= a / b < 1.
Proof.
  intros Ha Hb. assert (Hpos : 0 < b) by lra.
  split.
  - apply Rmult_le_pos; [exact Ha|]. left. apply Rinv_0_lt_compat. exact Hpos.
  - apply Rmult_lt_reg_r with b; [exact Hpos|].
    unfold Rdiv. rewrite Rmult_assoc, Rinv_l by lra. lra.
Qed.

Lemma distSqOf_nonneg (pos : list R) (center : Vector3) (i : nat) :
  0 <= distSqOf pos center i.
Proof. unfold distSqOf. nra. Qed.

(** The three tiers of the force. *)
Lemma handForce_tiers (dynamicRadius distSq : R) :
  0 <= distSq ->
  let r1 := dynamicRadius * 0.45 in
  let r2 := dynamicRadius * 1.0 in
  let r3 := dynamicRadius * 1.7 in
  let force := handForce dynamicRadius distSq in
  (distSq < r1 * r1 ->
     force = 0.10 * (1 - distSq / (r1 * r1)) * (1 - distSq / (r1 * r1))
     /\ 0 < force <= 0.10) /\
  (r1 * r1 <= distSq < r2 * r2 ->
     force = 0.035 * (1 - (distSq - r1 * r1) / (r2 * r2 - r1 * r1))
                   * (1 - (distSq - r1 * r1) / (r2 * r2 - r1 * r1))
     /\ 0 < force <= 0.035) /\
  (r2 * r2 <= distSq < r3 * r3 ->
     force = 0.008 * (1 - (distSq - r2 * r2) / (r3 * r3 - r2 * r2))
     /\ 0 < force <= 0.008) /\
  (r3 * r3 <= distSq -> force = 0) /\
  0 <= force.
Proof.
  intros Hd r1 r2 r3 force.
  assert (H12 : r1 * r1 <= r2 * r2) by (subst r1 r2; nra).
  assert (H23 : r2 * r2 <= r3 * r3) by (subst r2 r3; nra).
  assert (T1 : distSq < r1 * r1 ->
     force = 0.10 * (1 - distSq / (r1 * r1)) * (1 - distSq / (r1 * r1))
     /\ 0 < force <= 0.10).
  { intros Hlt. subst force. unfold handForce. cbv zeta. fold r1.
    rewrite decide_True by exact Hlt. split; [reflexivity|].
    pose proof (ratio_in_unit _ _ Hd Hlt) as Hq.
    set (q := distSq / (r1 * r1)) in *. nra. }
  assert (T2 : r1 * r1 <= distSq < r2 * r2 ->
     force = 0.035 * (1 - (distSq - r1 * r1) / (r2 * r2 - r1 * r1))
                   * (1 - (distSq - r1 * r1) / (r2 * r2 - r1 * r1))
     /\ 0 < force <= 0.035).
  { intros [Hge Hlt]. subst force. unfold handForce. cbv zeta. fold r1 r2.
    rewrite decide_False by lra. rewrite decide_True by exact Hlt.
    split; [reflexivity|].
    assert (Hq : 0 <= (distSq - r1 * r1) / (r2 * r2 - r1 * r1) < 1)
      by (apply ratio_in_unit; lra).
    set (q := (distSq - r1 * r1) / (r2 * r2 - r1 * r1)) in *. nra. }
  assert (T3 : r2 * r2 <= distSq < r3 * r3 ->
     force = 0.008 * (1 - (distSq - r2 * r2) / (r3 * r3 - r2 * r2))
     /\ 0 < force <= 0.008).
  { intros [Hge Hlt]. subst force. unfold handForce. cbv zeta. fold r1 r2 r3.
    rewrite decide_False by lra. rewrite decide_False by lra.
    rewrite decide_True by exact Hlt.
    split; [reflexivity|].
    assert (Hq : 0 <= (distSq - r2 * r2) / (r3 * r3 - r2 * r2) < 1)
      by (apply ratio_in_unit; lra).
    set (q := (distSq - r2 * r2) / (r3 * r3 - r2 * r2)) in *. nra. }
  assert (T4 : r3 * r3 <= distSq -> force = 0).
  { intros Hge. subst force. unfold handForce. cbv zeta. fold r1 r2 r3.
    rewrite !decide_False by lra. reflexivity. }
  split; [exact T1|]. split; [exact T2|]. split; [exact T3|]. split; [exact T4|].
  destruct (Rlt_dec distSq (r1 * r1)) as [H1|H1]; [apply T1 in H1; lra|].
  destruct (Rlt_dec distSq (r2 * r2)) as [H2|H2]; [assert (H : r1 * r1 <= distSq < r2 * r2) by lra; apply T2 in H; lra|].
  destruct (Rlt_dec distSq (r3 * r3)) as [H3|H3]; [assert (H : r2 * r2 <= distSq < r3 * r3) by lra; apply T3 in H; lra|].
  rewrite T4 by lra. lra.
Qed.

End ForceFieldFacts.

(** C8.  On a tick with the hand present, the hand force on particle [i]
    is [force] times its offset from the hand centroid, subtracted from the
    velocity: a push along the line from the centroid to the particle,
    pointing to the centroid.  With r1 = 0.45, r2 = 1.0 and r3 = 1.7 times
    State.dynamicRadius, [force] is 0.10 t^2 inside r1, 0.035 t^2 between
    r1 and r2, 0.008 t between r2 and r3 (t the blend factor of the tier,
    running from 1 at its inner edge to 0 at its outer edge) and exactly 0
    at or beyond r3; the tier peaks decrease, and [force] is never
    negative, so the velocity increment never points away from the
    centroid. *)
Theorem hand_force_field_pulls_inward
  (PARTICLE_COUNT : nat) (random : nat -> R) (s : State) (i : nat) :
  buffers_allocated PARTICLE_COUNT s ->
  (i < PARTICLE_COUNT)%nat ->
  handPresent s = true ->
  let d := offset (positions s) (handCentroid s) i in
  let distSq := distSqOf (positions s) (handCentroid s) i in
  let r1 := dynamicRadius s * 0.45 in
  let r2 := dynamicRadius s * 1.0 in
  let r3 := dynamicRadius s * 1.7 in
  let force := handForce (dynamicRadius s) distSq in
  (forall c, (c < 3)%nat ->
     velocities (updateParticles PARTICLE_COUNT random s) !!! (i * 3 + c)%nat
     = (velocities s !!! (i * 3 + c)%nat - d c * force
        + explosionTerm s random i c + springTerm s i c) * DAMPING) /\
  (distSq < r1 * r1 ->
     force = 0.10 * (1 - distSq / (r1 * r1)) * (1 - distSq / (r1 * r1))
     /\ 0 < force <= 0.10) /\
  (r1 * r1 <= distSq < r2 * r2 ->
     force = 0.035 * (1 - (distSq - r1 * r1) / (r2 * r2 - r1 * r1))
                   * (1 - (distSq - r1 * r1) / (r2 * r2 - r1 * r1))
     /\ 0 < force <= 0.035) /\
  (r2 * r2 <= distSq < r3 * r3 ->
     force = 0.008 * (1 - (distSq - r2 * r2) / (r3 * r3 - r2 * r2))
     /\ 0 < force <= 0.008) /\
  (r3 * r3 <= distSq -> force = 0) /\
  0 <= force /\
  0 <= (- d 0%nat * force) * (- d 0%nat) + (- d 1%nat * force) * (- d 1%nat)
       + (- d 2%nat * force) * (- d 2%nat) /\
  0.008 < 0.035 < 0.10.
Proof.
  intros (Hp & Hv & _) Hi Hhand d distSq r1 r2 r3 force.
  pose proof (handForce_tiers (dynamicRadius s) distSq
                (distSqOf_nonneg _ _ _)) as Htiers.
  cbv zeta in Htiers. fold r1 r2 r3 force in Htiers.
  destruct Htiers as (T1 & T2 & T3 & T4 & Hpos).
  split.
  { intros c Hc.
    destruct (updateParticles_particle PARTICLE_COUNT s random i c Hp Hv Hi Hc)
      as [-> _].
    unfold tickedVelocity, handTerm. rewrite Hhand.
    fold distSq force. fold (d c). ring. }
  split; [exact T1|]. split; [exact T2|]. split; [exact T3|]. split; [exact T4|].
  split; [exact Hpos|]. split; [|lra].
  replace ((- d 0%nat * force) * (- d 0%nat) + (- d 1%nat * force) * (- d 1%nat)
           + (- d 2%nat * force) * (- d 2%nat))
    with (force * distSq) by (subst distSq d; unfold distSqOf; ring).
  apply Rmult_le_pos; [exact Hpos|]. apply distSqOf_nonneg.
Qed.


(* ================================================================== *)
(** * The depth push *)

Section DepthPushFacts.

Lemma EPS_pos : 0 < EPS.
Proof. unfold EPS. lra. Qed.

Lemma pushRadius_pos (handRadius : R) : 0 < pushRadius handRadius.
Proof.
  unfold pushRadius. pose proof (Rmax_r (handRadius * 1.2) EPS). pose proof EPS_pos. lra.
Qed.

(** Comparing the squared distance with the squared radius is comparing
    the distance with the radius. *)
Lemma inside_iff (a r : R) : 0 <= a -> 0 < r -> (a < r * r <-> sqrt a < r).
Proof.
  intros Ha Hr. split; intros H.
  - rewrite <- (sqrt_square r) by lra. apply sqrt_lt_1_alt. lra.
  - rewrite <- (sqrt_sqrt a) by exact Ha.
    pose proof (sqrt_pos a). nra.
Qed.

Lemma depthPushBody_spec (posArray : list R) (handCenter : Vector3)
    (handRadius pushStrength : R) (k : nat) (vel0 vel : list R) :
  (k * 3 + 2 < length vel)%nat ->
  (forall c, (c < 3)%nat -> vel !!! (k * 3 + c)%nat = vel0 !!! (k * 3 + c)%nat) ->
  let radius := pushRadius handRadius in
  let vel' := depthPushBody posArray handCenter radius (radius * radius) pushStrength
                k vel in
  length vel' = length vel /\
  (forall j, (j < k * 3 \/ k * 3 + 3 <= j)%nat -> vel' !!! j = vel !!! j) /\
  (forall c, (c < 3)%nat ->
     vel' !!! (k * 3 + c)%nat
     = if decide (distSqOf posArray handCenter k < radius * radius)
       then vel0 !!! (k * 3 + c)%nat
            + depthPush posArray handCenter handRadius pushStrength k c
       else vel0 !!! (k * 3 + c)%nat).
Proof.
  intros Hlen Hsame radius vel'.
  pose proof (Hsame 0%nat ltac:(lia)) as H0. rewrite Nat.add_0_r in H0.
  pose proof (Hsame 1%nat ltac:(lia)) as H1.
  pose proof (Hsame 2%nat ltac:(lia)) as H2.
  subst vel'. unfold depthPushBody. cbv zeta.
  unfold depthPush, distOf, distSqOf, offset. simpl component.
  rewrite !Nat.add_0_r. fold radius.
  destruct (decide _) as [Hin|Hout].
  - split; [cells; reflexivity|].
    split; [intros j Hj; cells; reflexivity|].
    intros [|[|[|c]]] Hc; try lia; simpl component; rewrite ?Nat.add_0_r; cells;
      rewrite ?H0, ?H1, ?H2; reflexivity.
  - split; [reflexivity|]. split; [reflexivity|].
    intros c Hc. apply Hsame. exact Hc.
Qed.

Lemma depthPush_loop (posArray velocities : list R) (handCenter : Vector3)
    (handRadius pushStrength : R) (n : nat) :
  (n * 3 <= length velocities)%nat ->
  let radius := pushRadius handRadius in
  let vel' := for_loop n
                (depthPushBody posArray handCenter radius (radius * radius) pushStrength)
                velocities in
  length vel' = length velocities /\
  (forall j, (n * 3 <= j)%nat -> vel' !!! j = velocities !!! j) /\
  (forall k c, (k < n)%nat -> (c < 3)%nat ->
     vel' !!! (k * 3 + c)%nat
     = if decide (distSqOf posArray handCenter k < radius * radius)
       then velocities !!! (k * 3 + c)%nat
            + depthPush posArray handCenter handRadius pushStrength k c
       else velocities !!! (k * 3 + c)%nat).
Proof.
  intros Hlen radius.
  induction n as [|n IH].
  - simpl. split; [reflexivity|]. split; [reflexivity|]. intros; lia.
  - cbv zeta in *. cbn [for_loop].
    destruct IH as (Hl & Hrest & Hdone); [lia|].
    set (vel := for_loop n _ velocities) in *.
    pose proof (depthPushBody_spec posArray handCenter handRadius pushStrength n
                  velocities vel) as Hbody.
    cbv zeta in Hbody. fold radius in Hbody.
    destruct Hbody as (Hl' & Hout & Hin); [lia| |].
    { intros c Hc. apply Hrest. lia. }
    split; [congruence|]. split.
    + intros j Hj. rewrite Hout by lia. apply Hrest. lia.
    + intros k c Hk Hc.
      destruct (decide (k = n)) as [->|Hne].
      * apply Hin. exact Hc.
      * rewrite Hout by lia. apply Hdone; lia.
Qed.

(** The velocity of a particle after applyDepthPushToParticles. *)
Lemma applyDepthPush_particle (posArray velocities : list R) (handCenter : Vector3)
    (handRadius : R) (pushStrength : option R) (k c : nat) :
  length velocities = length posArray ->
  (k < length posArray / 3)%nat -> (c < 3)%nat ->
  applyDepthPushToParticles posArray velocities handCenter handRadius pushStrength
    !!! (k * 3 + c)%nat
  = if decide (distOf posArray handCenter k < pushRadius handRadius)
    then velocities !!! (k * 3 + c)%nat
         + depthPush posArray handCenter handRadius (default 0.18 pushStrength) k c
    else velocities !!! (k * 3 + c)%nat.
Proof.
  intros Hlen Hk Hc.
  pose proof (depthPush_loop posArray velocities handCenter handRadius
                (default 0.18 pushStrength) (length posArray / 3)) as Hloop.
  cbv zeta in Hloop.
  destruct Hloop as (_ & _ & Hdone).
  { pose proof (Nat.Div0.mul_div_le (length posArray) 3). lia. }
  unfold applyDepthPushToParticles. cbv zeta. fold (pushRadius handRadius).
  rewrite (Hdone k c Hk Hc).
  pose proof (inside_iff _ _ (distSqOf_nonneg posArray handCenter k)
                (pushRadius_pos handRadius)) as Hiff.
  fold (distOf posArray handCenter k) in Hiff.
  destruct (decide (distSqOf posArray handCenter k < _)) as [Hin|Hout].
  - rewrite decide_True by (apply Hiff; exact Hin). reflexivity.
  - rewrite decide_False; [reflexivity|]. intros H. apply Hout, Hiff, H.
Qed.

End DepthPushFacts.

(** C10, as the code has it.  applyDepthPushToParticles changes nothing but
    the velocity array: after the call made by animate the positions,
    colors, targets and occlusion factors of the State are as before.  A
    particle whose distance from the hand centroid is at least
    radius = max(1.2 handRadius, EPS) keeps its three velocity components.
    A particle strictly inside gains, on each axis,
    (offset / d) (1 - d / radius) pushStrength, where d is its distance
    plus EPS: both the direction and the falloff use the padded distance.
    For a positive pushStrength the gain points away from the centroid
    while d < radius, and toward it for a particle within EPS of the
    boundary. *)
Theorem depth_push_changes_only_near_velocities
  (posArray vel : list R) (handCenter : Vector3) (handRadius : R)
  (pushStrength : option R) (k : nat) :
  length vel = length posArray ->
  (k < length posArray / 3)%nat ->
  let vel' :=
    applyDepthPushToParticles posArray vel handCenter handRadius pushStrength in
  let strength := default 0.18 pushStrength in
  let radius := pushRadius handRadius in
  let dist := distOf posArray handCenter k in
  (forall s : State,
     positions (pushParticles s) = positions s /\ colors (pushParticles s) = colors s /\
     targets (pushParticles s) = targets s /\
     occlusionFactors (pushParticles s) = occlusionFactors s /\
     velocities (pushParticles s)
     = applyDepthPushToParticles (positions s) (velocities s) (handCentroid s)
         (handRadius3D s) (Some DEPTH_PUSH_STRENGTH)) /\
  radius = Rmax (handRadius * 1.2) EPS /\
  (radius <= dist ->
   forall c, (c < 3)%nat ->
     vel' !!! (k * 3 + c)%nat = vel !!! (k * 3 + c)%nat) /\
  (dist < radius ->
   forall c, (c < 3)%nat ->
     vel' !!! (k * 3 + c)%nat
     = vel !!! (k * 3 + c)%nat
       + (offset posArray handCenter k c / (dist + EPS))
         * ((1 - (dist + EPS) / radius) * strength)) /\
  (0 < strength -> dist + EPS < radius -> 0 < (1 - (dist + EPS) / radius) * strength) /\
  (0 < strength -> radius < dist + EPS -> (1 - (dist + EPS) / radius) * strength < 0).
Proof.
  intros Hlen Hk vel' strength radius dist.
  split; [intros s; repeat split; reflexivity|].
  split; [reflexivity|].
  pose proof (pushRadius_pos handRadius) as Hr. fold radius in Hr.
  split; [|split; [|split]].
  - intros Hfar c Hc. subst vel'.
    rewrite (applyDepthPush_particle _ _ _ _ _ _ _ Hlen Hk Hc).
    rewrite decide_False; [reflexivity|]. fold dist radius. lra.
  - intros Hnear c Hc. subst vel'.
    rewrite (applyDepthPush_particle _ _ _ _ _ _ _ Hlen Hk Hc).
    rewrite decide_True by exact Hnear. reflexivity.
  - intros Hs Hin. apply Rmult_lt_0_compat; [|exact Hs].
    assert (Hq : (dist + EPS) / radius < 1).
    { apply Rmult_lt_reg_r with radius; [exact Hr|].
      unfold Rdiv. rewrite Rmult_assoc, Rinv_l by lra. lra. }
    lra.
  - intros Hs Hout.
    assert (Hq : 1 < (dist + EPS) / radius).
    { apply Rmult_lt_reg_r with radius; [exact Hr|].
      unfold Rdiv. rewrite Rmult_assoc, Rinv_l by lra. lra. }
    nra.
Qed.


(* ================================================================== *)
(** * Occlusion *)

Section OcclusionFacts.

Ltac cells' :=
  unfold add_at, sub_at, mul_at, div_at in *;
  repeat first
    [ rewrite modify_at_ne by lia
    | rewrite modify_at_eq by (rewrite ?length_modify_at; lia)
    | rewrite length_modify_at
    | rewrite list_lookup_total_insert_ne by lia
    | rewrite list_lookup_total_insert_eq by lia
    | rewrite length_insert ].

Lemma occlusionBody_spec (posArray : list R) (handCenter : Vector3) (handRadius : R)
    (handPresent : bool) (maxFade : R) (i : nat) (colors factors : list R)
    (changed : bool) :
  (i * 3 + 2 < length colors)%nat -> (i < length factors)%nat ->
  let radius := occlusionRadius handRadius in
  let st := occlusionBody posArray handCenter handRadius handPresent maxFade
              radius (radius * radius) i (colors, factors, changed) in
  length st.1.1 = length colors /\ length st.1.2 = length factors /\
  (forall j, (j < i * 3 \/ i * 3 + 3 <= j)%nat -> st.1.1 !!! j = colors !!! j) /\
  (forall j, j <> i -> st.1.2 !!! j = factors !!! j) /\
  st.1.2 !!! i
    = nextFactor posArray handCenter handRadius handPresent maxFade i (factors !!! i) /\
  (forall c, (c < 3)%nat ->
     st.1.1 !!! (i * 3 + c)%nat
     = nextColor posArray handCenter handRadius handPresent maxFade i
         (factors !!! i) (colors !!! (i * 3 + c)%nat)).
Proof.
  intros Hc Hf radius st. subst st.
  unfold occlusionBody, nextFactor, nextColor, occlusionReset. cbv zeta.
  fold (prevFadeOf (factors !!! i)).
  set (prevFade := prevFadeOf (factors !!! i)).
  assert (Hreset :
    ~ occluded posArray handCenter handRadius handPresent i ->
    let st := if decide (prevFade <> 1)
              then (div_at (i * 3 + 2) prevFade
                      (div_at (i * 3 + 1) prevFade (div_at (i * 3) prevFade colors)),
                    <[i := 1]> factors, true)
              else (colors, factors, changed) in
    length st.1.1 = length colors /\ length st.1.2 = length factors /\
    (forall j, (j < i * 3 \/ i * 3 + 3 <= j)%nat -> st.1.1 !!! j = colors !!! j) /\
    (forall j, j <> i -> st.1.2 !!! j = factors !!! j) /\
    st.1.2 !!! i
      = (if decide (occluded posArray handCenter handRadius handPresent i)
         then if decide (Rabs (fadeOf posArray handCenter handRadius maxFade i - prevFade)
                         > 1e-3)
              then fadeOf posArray handCenter handRadius maxFade i else factors !!! i
         else if decide (prevFade <> 1) then 1 else factors !!! i) /\
    (forall c, (c < 3)%nat ->
       st.1.1 !!! (i * 3 + c)%nat
       = (if decide (occluded posArray handCenter handRadius handPresent i)
          then if decide (Rabs (fadeOf posArray handCenter handRadius maxFade i - prevFade)
                          > 1e-3)
               then colors !!! (i * 3 + c)%nat / prevFade
                    * fadeOf posArray handCenter handRadius maxFade i
               else colors !!! (i * 3 + c)%nat
          else if decide (prevFade <> 1) then colors !!! (i * 3 + c)%nat / prevFade
               else colors !!! (i * 3 + c)%nat))).
  { intros Hnot. cbv zeta.
    destruct (decide (occluded posArray handCenter handRadius handPresent i))
      as [Hyes|_]; [contradiction|].
    destruct (decide (prevFade <> 1)) as [Hne|Heq]; cbn [fst snd].
    - split; [cells'; reflexivity|]. split; [cells'; reflexivity|].
      split; [intros j Hj; cells'; reflexivity|].
      split; [intros j Hj; cells'; reflexivity|].
      split; [cells'; reflexivity|].
      intros [|[|[|c]]] Hlt; try lia; rewrite ?Nat.add_0_r; cells'; reflexivity.
    - repeat split; reflexivity. }
  cbv zeta in Hreset.
  destruct handPresent; cbn [negb].
  2:{ apply Hreset. intros (H & _). discriminate. }
  destruct (decide (posArray !!! (i * 3 + 2)%nat - vz handCenter <= 0)) as [Hdz|Hdz].
  { apply Hreset. intros (_ & H & _). unfold offset in H. simpl in H. lra. }
  destruct (decide (_ > radius * radius)) as [Hfar|Hnear].
  { apply Hreset. intros (_ & _ & H). unfold offset in H. simpl in H.
    rewrite Nat.add_0_r in H. fold radius in H. lra. }
  assert (Hocc : occluded posArray handCenter handRadius true i).
  { unfold occluded, offset. simpl. rewrite Nat.add_0_r. fold radius.
    split; [reflexivity|]. split; lra. }
  destruct (decide (occluded posArray handCenter handRadius true i))
    as [_|Hno]; [|contradiction].
  assert (Hfade :
    1 - Rmin maxFade
          ((1 - (sqrt ((posArray !!! (i * 3)%nat - vx handCenter)
                       * (posArray !!! (i * 3)%nat - vx handCenter)
                       + (posArray !!! (i * 3 + 1)%nat - vy handCenter)
                         * (posArray !!! (i * 3 + 1)%nat - vy handCenter)) + EPS) / radius)
           * (if decide (handRadius * 1.5 + EPS = 0) then 1
              else Rmin 1 ((posArray !!! (i * 3 + 2)%nat - vz handCenter)
                           / (handRadius * 1.5 + EPS)))
           * maxFade)
    = fadeOf posArray handCenter handRadius maxFade i).
  { unfold fadeOf, offset. simpl. rewrite Nat.add_0_r. reflexivity. }
  rewrite Hfade.
  set (fade := fadeOf posArray handCenter handRadius maxFade i).
  destruct (decide (Rabs (fade - prevFade) > 1e-3)) as [Hbig|Hsmall]; cbn [fst snd].
  - split; [cells'; reflexivity|]. split; [cells'; reflexivity|].
    split; [intros j Hj; cells'; reflexivity|].
    split; [intros j Hj; cells'; reflexivity|].
    split; [cells'; reflexivity|].
    intros [|[|[|c]]] Hlt; try lia; rewrite ?Nat.add_0_r; cells'; reflexivity.
  - repeat split; reflexivity.
Qed.

Lemma occlusion_loop (posArray : list R) (handCenter : Vector3) (handRadius : R)
    (handPresent : bool) (maxFade : R) (colors factors : list R) (n : nat) :
  (n * 3 <= length colors)%nat -> (n <= length factors)%nat ->
  let radius := occlusionRadius handRadius in
  let st := for_loop n
              (occlusionBody posArray handCenter handRadius handPresent maxFade
                 radius (radius * radius))
              (colors, factors, false) in
  length st.1.1 = length colors /\ length st.1.2 = length factors /\
  (forall j, (n * 3 <= j)%nat -> st.1.1 !!! j = colors !!! j) /\
  (forall j, (n <= j)%nat -> st.1.2 !!! j = factors !!! j) /\
  (forall i, (i < n)%nat ->
     st.1.2 !!! i
     = nextFactor posArray handCenter handRadius handPresent maxFade i (factors !!! i)) /\
  (forall i c, (i < n)%nat -> (c < 3)%nat ->
     st.1.1 !!! (i * 3 + c)%nat
     = nextColor posArray handCenter handRadius handPresent maxFade i
         (factors !!! i) (colors !!! (i * 3 + c)%nat)).
Proof.
  intros Hc Hf radius.
  induction n as [|n IH].
  - simpl. split; [reflexivity|]. split; [reflexivity|].
    split; [reflexivity|]. split; [reflexivity|]. split; intros; lia.
  - cbv zeta in *. cbn [for_loop].
    destruct IH as (Hlc & Hlf & Hrc & Hrf & Hdf & Hdc); [lia|lia|].
    destruct (for_loop n _ _) as [[col fac] ch]. cbn [fst snd] in *.
    pose proof (occlusionBody_spec posArray handCenter handRadius handPresent maxFade
                  n col fac ch) as Hbody.
    cbv zeta in Hbody. fold radius in Hbody.
    destruct Hbody as (Hlc' & Hlf' & Hoc & Hof & Hif & Hic); [lia|lia|].
    split; [congruence|]. split; [congruence|].
    split; [intros j Hj; rewrite Hoc by lia; apply Hrc; lia|].
    split; [intros j Hj; rewrite Hof by lia; apply Hrf; lia|].
    split.
    + intros i Hi. destruct (decide (i = n)) as [->|Hne].
      * rewrite Hif, Hrf by lia. reflexivity.
      * rewrite Hof by lia. apply Hdf. lia.
    + intros i c Hi Hlt. destruct (decide (i = n)) as [->|Hne].
      * rewrite Hic, Hrf, Hrc by lia. reflexivity.
      * rewrite Hoc by lia. apply Hdc; lia.
Qed.

(** What applyOcclusionToParticles stores for every particle. *)
Lemma applyOcclusion_particle (posArray colors occlusionFactors : list R)
    (handCenter : Vector3) (handRadius : R) (opts : OcclusionOpts) (i : nat) :
  (length occlusionFactors * 3 <= length colors)%nat ->
  (i < length occlusionFactors)%nat ->
  let r := applyOcclusionToParticles posArray colors occlusionFactors handCenter
             handRadius opts in
  let start := startFactors occlusionFactors opts in
  res_occlusionFactors r !!! i
  = nextFactor posArray handCenter handRadius (opt_handPresent opts) (opt_maxFade opts)
      i (start !!! i) /\
  (forall c, (c < 3)%nat ->
     res_colors r !!! (i * 3 + c)%nat
     = nextColor posArray handCenter handRadius (opt_handPresent opts) (opt_maxFade opts)
         i (start !!! i) (colors !!! (i * 3 + c)%nat)) /\
  length (res_colors r) = length colors /\
  length (res_occlusionFactors r) = length occlusionFactors /\
  res_lastColorVersionApplied r = opt_colorVersion opts.
Proof.
  intros Hc Hi r start. subst r.
  unfold applyOcclusionToParticles. cbv zeta.
  fold (startFactors occlusionFactors opts). fold start.
  fold (occlusionRadius handRadius).
  assert (Hls : length start = length occlusionFactors).
  { subst start. unfold startFactors. destruct (decide _); [apply length_replicate|reflexivity]. }
  pose proof (occlusion_loop posArray handCenter handRadius (opt_handPresent opts)
                (opt_maxFade opts) colors start (length start)) as Hloop.
  cbv zeta in Hloop.
  destruct Hloop as (Hlc & Hlf & _ & _ & Hdf & Hdc); [lia|lia|].
  destruct (for_loop (length start) _ _) as [[col fac] ch]. cbn [fst snd] in *.
  cbn [res_colors res_occlusionFactors res_lastColorVersionApplied].
  split; [apply Hdf; lia|].
  split; [intros c Hlt; apply Hdc; lia|].
  split; [exact Hlc|]. split; [congruence|reflexivity].
Qed.

End OcclusionFacts.

Section VersionTokenFacts.

Lemma prevFadeOf_one : prevFadeOf 1 = 1.
Proof. unfold prevFadeOf. rewrite decide_False by lra. reflexivity. Qed.

(** From a factor of 1 the stored color is the color found times the
    stored factor, and a particle that is not occluded keeps both. *)
Lemma fresh_particle (posArray : list R) (handCenter : Vector3) (handRadius : R)
    (handPresent : bool) (maxFade : R) (i : nat) (color : R) :
  nextColor posArray handCenter handRadius handPresent maxFade i 1 color
  = color * nextFactor posArray handCenter handRadius handPresent maxFade i 1 /\
  (~ occluded posArray handCenter handRadius handPresent i ->
   nextFactor posArray handCenter handRadius handPresent maxFade i 1 = 1 /\
   nextColor posArray handCenter handRadius handPresent maxFade i 1 color = color).
Proof.
  unfold nextColor, nextFactor. cbv zeta. rewrite prevFadeOf_one.
  destruct (decide (occluded _ _ _ _ _)) as [Ho|Hn].
  - split; [|intros H; contradiction].
    destruct (decide _); [field|ring].
  - rewrite !decide_False by (intros H; apply H; reflexivity).
    split; [ring|]. intros _. split; reflexivity.
Qed.

(** When the token moved, the factors the call finds do not matter. *)
Lemma stale_factors_ignored (posArray colors stale stale' : list R)
    (handCenter : Vector3) (handRadius : R) (opts : OcclusionOpts) :
  opt_lastColorVersionApplied opts <> opt_colorVersion opts ->
  length stale = length stale' ->
  applyOcclusionToParticles posArray colors stale handCenter handRadius opts
  = applyOcclusionToParticles posArray colors stale' handCenter handRadius opts.
Proof.
  intros Hv Hl. unfold applyOcclusionToParticles. cbv zeta.
  rewrite !decide_True by exact Hv. rewrite Hl. reflexivity.
Qed.

Lemma applyOcclusion_version (posArray colors factors : list R)
    (handCenter : Vector3) (handRadius : R) (opts : OcclusionOpts) :
  res_lastColorVersionApplied
    (applyOcclusionToParticles posArray colors factors handCenter handRadius opts)
  = opt_colorVersion opts.
Proof.
  unfold applyOcclusionToParticles. cbv zeta.
  destruct (for_loop _ _ _) as [[col fac] ch]. reflexivity.
Qed.

End VersionTokenFacts.

(** C6, as the code has it.  Let an external actor overwrite the whole
    color buffer with the base colors [base] and bump the version token,
    in a state whose last applied version is not ahead of the token.  The
    next occlusion call sees the token differ and starts from factors that
    are all 1: whatever stale factors the array held, the call ends in the
    same state, so no stale factor divides or multiplies a base color.
    The call then reapplies the fades of the current frame: after it
    every stored color is its base color times the factor stored for its
    particle in this very call.  A particle that is not occluded (hand
    absent, depth offset [dz <= 0], or outside the lateral radius) has
    factor 1 and exactly its base color; an occluded particle has the
    fresh fade as its factor when the fade differs from 1 by more than
    1e-3, and factor 1 otherwise, so its stored color is the base color
    times the fresh fade, not the base color itself.  The version is
    recorded as applied. *)
Theorem version_bump_resets_stale_fades (s : State) (base : list R) :
  length (positions s) = (length (occlusionFactors s) * 3)%nat ->
  length base = (length (occlusionFactors s) * 3)%nat ->
  (lastColorVersionApplied s <= colorVersion s)%nat ->
  let n := length (occlusionFactors s) in
  let s1 := markColorsUpdated (set_colors base s) in
  let s2 := occludeParticles s1 in
  lastColorVersionApplied s1 <> colorVersion s1 /\
  (forall stale, length stale = n ->
     occludeParticles (set_occlusionFactors stale s1) = s2) /\
  (forall i c, (i < n)%nat -> (c < 3)%nat ->
     colors s2 !!! (i * 3 + c)%nat
     = base !!! (i * 3 + c)%nat * occlusionFactors s2 !!! i) /\
  (forall i, (i < n)%nat ->
     ~ occluded (positions s) (handCentroid s) (handRadius3D s) (handPresent s) i ->
     occlusionFactors s2 !!! i = 1 /\
     forall c, (c < 3)%nat -> colors s2 !!! (i * 3 + c)%nat = base !!! (i * 3 + c)%nat) /\
  (forall i, (i < n)%nat ->
     occluded (positions s) (handCentroid s) (handRadius3D s) (handPresent s) i ->
     let fade :=
       fadeOf (positions s) (handCentroid s) (handRadius3D s) OCCLUSION_MAX_FADE i in
     occlusionFactors s2 !!! i = if decide (Rabs (fade - 1) > 1e-3) then fade else 1) /\
  lastColorVersionApplied s2 = colorVersion s2.
Proof.
  intros _ Hlen Hver n s1 s2.
  assert (Hbump : lastColorVersionApplied s1 <> colorVersion s1).
  { subst s1. cbn. lia. }
  split; [exact Hbump|].
  split.
  { intros stale Hstale. subst s2. unfold occludeParticles. cbv zeta.
    change (occlusionFactors (set_occlusionFactors stale s1)) with stale.
    change (positions (set_occlusionFactors stale s1)) with (positions s1).
    change (colors (set_occlusionFactors stale s1)) with (colors s1).
    change (handCentroid (set_occlusionFactors stale s1)) with (handCentroid s1).
    change (handRadius3D (set_occlusionFactors stale s1)) with (handRadius3D s1).
    change (handPresent (set_occlusionFactors stale s1)) with (handPresent s1).
    change (colorVersion (set_occlusionFactors stale s1)) with (colorVersion s1).
    change (lastColorVersionApplied (set_occlusionFactors stale s1))
      with (lastColorVersionApplied s1).
    rewrite (stale_factors_ignored _ _ stale (occlusionFactors s1));
      [|exact Hbump|exact Hstale].
    destruct (res_changed _); reflexivity. }
  assert (Hpart : forall i, (i < n)%nat ->
    occlusionFactors s2 !!! i
    = nextFactor (positions s) (handCentroid s) (handRadius3D s) (handPresent s)
        OCCLUSION_MAX_FADE i 1 /\
    forall c, (c < 3)%nat ->
      colors s2 !!! (i * 3 + c)%nat
      = nextColor (positions s) (handCentroid s) (handRadius3D s) (handPresent s)
          OCCLUSION_MAX_FADE i 1 (base !!! (i * 3 + c)%nat)).
  { intros i Hi.
    pose proof (applyOcclusion_particle (positions s1) (colors s1) (occlusionFactors s1)
                  (handCentroid s1) (handRadius3D s1)
                  (mkOcclusionOpts (handPresent s1) OCCLUSION_MAX_FADE (colorVersion s1)
                     (lastColorVersionApplied s1)) i) as Hp.
    cbv zeta in Hp.
    destruct Hp as (Hf & Hc & _).
    { change (colors s1) with base. change (occlusionFactors s1) with (occlusionFactors s).
      lia. }
    { exact Hi. }
    assert (Hstart : startFactors (occlusionFactors s1)
                       (mkOcclusionOpts (handPresent s1) OCCLUSION_MAX_FADE
                          (colorVersion s1) (lastColorVersionApplied s1)) !!! i = 1).
    { unfold startFactors. cbn [opt_lastColorVersionApplied opt_colorVersion].
      rewrite decide_True by exact Hbump.
      apply lookup_total_replicate_2. exact Hi. }
    rewrite Hstart in Hf, Hc.
    cbn [opt_handPresent opt_maxFade] in Hf, Hc.
    subst s2. unfold occludeParticles. cbv zeta.
    destruct (res_changed _); cbn; split; assumption. }
  split; [|split; [|split]].
  - intros i c Hi Hc. destruct (Hpart i Hi) as [Hf Hcol].
    rewrite (Hcol c Hc), Hf. apply fresh_particle.
  - intros i Hi Hnot. destruct (Hpart i Hi) as [Hf Hcol].
    pose proof (fresh_particle (positions s) (handCentroid s) (handRadius3D s)
                  (handPresent s) OCCLUSION_MAX_FADE i) as Hfresh.
    split.
    + rewrite Hf. apply (Hfresh 0). exact Hnot.
    + intros c Hc. rewrite (Hcol c Hc). apply (Hfresh _). exact Hnot.
  - intros i Hi Hocc fade. destruct (Hpart i Hi) as [Hf _].
    rewrite Hf. unfold nextFactor. cbv zeta. rewrite prevFadeOf_one.
    rewrite decide_True by exact Hocc. reflexivity.
  - subst s2. unfold occludeParticles. cbv zeta.
    destruct (res_changed _); cbn; apply applyOcclusion_version.
Qed.

(** The lower end of the interval is kept by every call: no stored factor
    drops below [1 - maxFade]. *)
Lemma occlusion_factor_lower_bound (posArray colors occlusionFactors : list R)
    (handCenter : Vector3) (handRadius : R) (opts : OcclusionOpts) (i : nat) :
  (length occlusionFactors * 3 <= length colors)%nat ->
  (i < length occlusionFactors)%nat ->
  0 <= opt_maxFade opts ->
  1 - opt_maxFade opts <= occlusionFactors !!! i ->
  1 - opt_maxFade opts
  <= res_occlusionFactors
       (applyOcclusionToParticles posArray colors occlusionFactors handCenter
          handRadius opts) !!! i.
Proof.
  intros Hc Hi Hfade Hprev.
  destruct (applyOcclusion_particle posArray colors occlusionFactors handCenter
              handRadius opts i Hc Hi) as (-> & _).
  assert (Hstart : 1 - opt_maxFade opts <= startFactors occlusionFactors opts !!! i).
  { unfold startFactors. destruct (decide _); [|exact Hprev].
    rewrite lookup_total_replicate_2 by exact Hi. lra. }
  unfold nextFactor. cbv zeta.
  destruct (decide (occluded _ _ _ _ _)).
  - destruct (decide _); [|exact Hstart].
    unfold fadeOf. cbv zeta.
    match goal with |- _ <= 1 - Rmin ?a ?b => pose proof (Rmin_l a b) end. lra.
  - destruct (decide _); [lra|exact Hstart].
Qed.

Lemma occlusionRadius_unit : occlusionRadius 1 = 1.25.
Proof. unfold occlusionRadius. rewrite Rmax_left by (unfold EPS; lra). lra. Qed.

Lemma depth_share_unit : Rmin 1 (1 / (1 * 1.5 + EPS)) = 1 / (1 * 1.5 + EPS)
                         /\ 0.6 < 1 / (1 * 1.5 + EPS) < 0.7.
Proof.
  assert (Hq : 0.6 < 1 / (1 * 1.5 + EPS) < 0.7).
  { unfold EPS, Rdiv. rewrite Rmult_1_l.
    assert (Hpos : 0 < / (1 * 1.5 + 1e-6)) by (apply Rinv_0_lt_compat; lra).
    assert (Hone : (1 * 1.5 + 1e-6) * / (1 * 1.5 + 1e-6) = 1) by (apply Rinv_r; lra).
    split; nra. }
  split; [apply Rmin_right; lra|exact Hq].
Qed.

(** The first call, with the particle on the axis of the hand, fades
    it to about one half. *)
Lemma axis_fade :
  0.4 < nextFactor axis_positions vzero 1 true 0.75 0 1 < 0.6.
Proof.
  unfold nextFactor. cbv zeta. rewrite prevFadeOf_one.
  assert (Hocc : occluded axis_positions vzero 1 true 0).
  { unfold occluded, offset, axis_positions. rewrite occlusionRadius_unit. simpl.
    split; [reflexivity|]. split; lra. }
  rewrite decide_True by exact Hocc.
  assert (Hfade : 0.4 < fadeOf axis_positions vzero 1 0.75 0 < 0.6).
  { unfold fadeOf, offset, axis_positions. cbv zeta. rewrite occlusionRadius_unit. simpl.
    replace ((0 - 0) * (0 - 0) + (0 - 0) * (0 - 0)) with 0 by ring.
    rewrite sqrt_0.
    rewrite decide_False by (unfold EPS; lra).
    replace (1 - 0) with 1 by ring.
    destruct depth_share_unit as [-> Hq].
    set (q := 1 / (1 * 1.5 + EPS)) in *.
    assert (Hr : 0.999 < 1 - (0 + EPS) / 1.25 < 1) by (unfold EPS; lra).
    set (r := 1 - (0 + EPS) / 1.25) in *.
    rewrite Rmin_right by nra. nra. }
  destruct (decide _) as [_|Hsmall]; [exact Hfade|].
  exfalso. apply Hsmall. rewrite Rabs_left by lra. lra.
Qed.

(** The second call finds the particle on the rim: the fade it stores is
    above 1. *)
Lemma rim_fade (factor : R) :
  0.4 < factor < 0.6 ->
  1 < nextFactor rim_positions vzero 1 true 0.75 0 factor.
Proof.
  intros Hf. unfold nextFactor. cbv zeta.
  assert (Hprev : prevFadeOf factor = factor)
    by (unfold prevFadeOf; rewrite decide_False by lra; reflexivity).
  rewrite Hprev.
  assert (Hocc : occluded rim_positions vzero 1 true 0).
  { unfold occluded, offset, rim_positions. rewrite occlusionRadius_unit. simpl.
    split; [reflexivity|]. split; lra. }
  rewrite decide_True by exact Hocc.
  assert (Hfade : 1 < fadeOf rim_positions vzero 1 0.75 0).
  { unfold fadeOf, offset, rim_positions. cbv zeta. rewrite occlusionRadius_unit. simpl.
    replace ((1.25 - 0) * (1.25 - 0) + (0 - 0) * (0 - 0)) with (1.25 * 1.25) by ring.
    rewrite sqrt_square by lra.
    rewrite decide_False by (unfold EPS; lra).
    replace (1 - 0) with 1 by ring.
    destruct depth_share_unit as [-> Hq].
    set (q := 1 / (1 * 1.5 + EPS)) in *.
    assert (Hr : 1 - (1.25 + EPS) / 1.25 < 0) by (unfold EPS; lra).
    set (r := 1 - (1.25 + EPS) / 1.25) in *.
    rewrite Rmin_right by nra. nra. }
  rewrite decide_True; [exact Hfade|].
  rewrite Rabs_right by lra. lra.
Qed.

(** C5, on the code.  The lower bound of the claim holds, the upper bound
    does not: the fade adds EPS to the lateral distance, so the radial
    factor (commented "0-1" in the source) is negative for a particle
    within EPS of the lateral radius, and the fade is above 1.  Starting
    from the factor 1, with maxFade 0.75 and a hand of radius 1 at the
    origin: a first call with the particle on the axis of the hand
    stores a factor inside the interval, and a second call with the
    particle on the rim of the lateral radius stores a factor above 1.
    With a hand of radius 0 a single call stores 1.75. *)
Theorem occlusion_factor_exceeds_one :
  let first := applyOcclusionToParticles axis_positions cyan_particle
                 initial_factors vzero 1 hand_present_opts in
  let second := applyOcclusionToParticles rim_positions (res_colors first)
                  (res_occlusionFactors first) vzero 1 hand_present_opts in
  let single := applyOcclusionToParticles pinpoint_positions cyan_particle
                  initial_factors vzero 0 hand_present_opts in
  initial_factors !!! 0%nat = 1 /\
  1 - 0.75 <= res_occlusionFactors first !!! 0%nat <= 1 /\
  1 < res_occlusionFactors second !!! 0%nat /\
  res_occlusionFactors single !!! 0%nat = 1.75.
Proof.
  cbv zeta. split; [reflexivity|].
  pose proof (applyOcclusion_particle axis_positions cyan_particle
                initial_factors vzero 1 hand_present_opts 0) as H1.
  cbv zeta in H1. destruct H1 as (Hf1 & _ & Hlc1 & Hlf1 & _); [simpl; lia|simpl; lia|].
  change (startFactors initial_factors hand_present_opts !!! 0%nat) with 1 in Hf1.
  change (opt_handPresent hand_present_opts) with true in Hf1.
  change (opt_maxFade hand_present_opts) with 0.75 in Hf1.
  pose proof axis_fade as Haxis. rewrite <- Hf1 in Haxis.
  split; [lra|].
  split.
  - pose proof (applyOcclusion_particle rim_positions
                  (res_colors (applyOcclusionToParticles axis_positions cyan_particle
                                 initial_factors vzero 1 hand_present_opts))
                  (res_occlusionFactors
                     (applyOcclusionToParticles axis_positions cyan_particle
                        initial_factors vzero 1 hand_present_opts))
                  vzero 1 hand_present_opts 0) as H2.
    cbv zeta in H2.
    destruct H2 as (Hf2 & _); [rewrite Hlc1, Hlf1; simpl; lia|rewrite Hlf1; simpl; lia|].
    rewrite Hf2.
    change (opt_handPresent hand_present_opts) with true.
    change (opt_maxFade hand_present_opts) with 0.75.
    unfold startFactors.
    rewrite decide_False by (intros H; apply H; reflexivity).
    apply rim_fade. exact Haxis.
  - pose proof (applyOcclusion_particle pinpoint_positions cyan_particle
                  initial_factors vzero 0 hand_present_opts 0) as Hp.
    cbv zeta in Hp. destruct Hp as (Hf & _); [simpl; lia|simpl; lia|].
    rewrite Hf. clear Hf.
    unfold startFactors, hand_present_opts, initial_factors. simpl.
    unfold nextFactor. cbv zeta. rewrite prevFadeOf_one.
    assert (Hrad : occlusionRadius 0 = EPS).
    { unfold occlusionRadius. apply Rmax_right. unfold EPS. lra. }
    assert (Hocc : occluded pinpoint_positions vzero 0 true 0).
    { unfold occluded, offset, pinpoint_positions. rewrite Hrad. simpl.
      unfold EPS. split; [reflexivity|]. split; lra. }
    rewrite decide_True by exact Hocc.
    assert (Hfade : fadeOf pinpoint_positions vzero 0 0.75 0 = 1.75).
    { unfold fadeOf, offset, pinpoint_positions. cbv zeta. rewrite Hrad. simpl.
      replace ((1e-6 - 0) * (1e-6 - 0) + (0 - 0) * (0 - 0)) with (1e-6 * 1e-6) by ring.
      rewrite sqrt_square by lra.
      rewrite decide_False by (unfold EPS; lra).
      rewrite (Rmin_left 1) by (unfold EPS; lra).
      unfold EPS.
      replace ((1 - (1e-6 + 1e-6) / 1e-6) * 1 * 0.75) with (-0.75) by lra.
      rewrite Rmin_right by lra. lra. }
    rewrite Hfade.
    rewrite decide_True; [reflexivity|].
    replace (1.75 - 1) with 0.75 by lra.
    rewrite Rabs_right by lra. lra.
Qed.


(* ================================================================== *)
(** * The text shape generator *)

Section TextShapeFacts.
Variable PARTICLE_COUNT : nat.
Variable measureText : Q -> string -> Q.
Variable getImageData : CanvasJob -> Z -> Z.

Lemma flat_map_nil {A B : Type} (f : A -> list B) (l : list A) :
  (forall a, f a = []) -> flat_map f l = [].
Proof.
  intros Hf. induction l as [|a l IH]; simpl; [reflexivity|].
  rewrite Hf, IH. reflexivity.
Qed.

(** No byte above 128: no point is collected. *)
Lemma collectValidPoints_dark (l : TextLayout) (job : CanvasJob) (data : Z -> Z) :
  (forall index, (data index <= 128)%Z) -> collectValidPoints l job data = [].
Proof.
  intros Hdark. unfold collectValidPoints. cbv zeta.
  apply flat_map_nil. intros y. apply flat_map_nil. intros x.
  destruct (Z.ltb_spec 128 (data ((Qfloor y * job_width job + Qfloor x) * 4)%Z))
    as [Hlt|Hge]; [|reflexivity].
  pose proof (Hdark ((Qfloor y * job_width job + Qfloor x) * 4)%Z). lia.
Qed.

(** With no point collected [len] is 1, [validPoints[0]] is undefined, and
    the first iteration throws. *)
Lemma fillTextTargets_empty (random : nat -> R) (tgt : list R) :
  (0 < PARTICLE_COUNT)%nat ->
  fillTextTargets PARTICLE_COUNT [] random tgt = None.
Proof.
  intros Hpos. unfold fillTextTargets. cbv zeta.
  destruct PARTICLE_COUNT as [|n]; [lia|].
  cbn [for_loop]. destruct (for_loop n _ _) as [acc|]; reflexivity.
Qed.

(** With a point collected the loop runs to its end. *)
Lemma fillTextTargets_nonempty (validPoints : list TextPoint) (random : nat -> R)
    (tgt : list R) :
  validPoints <> [] ->
  exists tgt', fillTextTargets PARTICLE_COUNT validPoints random tgt = Some tgt' /\
               length tgt' = length tgt.
Proof.
  intros Hne. unfold fillTextTargets. cbv zeta.
  assert (Hlen : (0 < length validPoints)%nat)
    by (destruct validPoints; [contradiction|simpl; lia]).
  rewrite decide_False by lia.
  induction PARTICLE_COUNT as [|n IH].
  - exists tgt. split; reflexivity.
  - destruct IH as (acc & Hacc & Hl). cbn [for_loop]. rewrite Hacc. simpl.
    destruct (lookup_lt_is_Some_2 validPoints (n mod length validPoints)) as [p Hp].
    { apply Nat.mod_upper_bound. lia. }
    rewrite Hp. simpl. eexists. split; [reflexivity|].
    rewrite !length_insert. exact Hl.
Qed.

Lemma generateText_blank (width : Z) (random : nat -> R) (s : State) :
  (0 < PARTICLE_COUNT)%nat ->
  (forall job index, (getImageData job index <= 128)%Z) ->
  generateText PARTICLE_COUNT measureText getImageData width random s = None.
Proof.
  intros Hpos Hdark. unfold generateText. cbv zeta.
  rewrite collectValidPoints_dark by (intros index; apply Hdark).
  rewrite fillTextTargets_empty by exact Hpos. reflexivity.
Qed.

End TextShapeFacts.

(** C7, on the code.  When the rasterized text has no foreground pixel the
    collected point set is empty and [validPoints.length || 1] makes the
    wrap length 1, but there is no default point: [validPoints[0]] is
    undefined and reading its [x] throws in the first iteration, before any
    target is written.  Here on a 1280 pixel window with 6600 particles and
    a canvas that stayed black. *)
Theorem generateText_throws_on_blank_canvas :
  collectValidPoints
    (fitLayout sample_measureText 1280 (layoutForWidth 1280))
    (canvasJob (fitLayout sample_measureText 1280 (layoutForWidth 1280)))
    (blank_canvas (canvasJob (fitLayout sample_measureText 1280 (layoutForWidth 1280))))
  = [] /\
  generateText desktop_particles sample_measureText blank_canvas 1280
    (fun _ => 0.5) desktop_state = None.
Proof.
  split.
  - apply collectValidPoints_dark. intros index. unfold blank_canvas. lia.
  - apply generateText_blank.
    + unfold desktop_particles. lia.
    + intros job index. unfold blank_canvas. lia.
Qed.


(* ================================================================== *)
(** * The sampling loops end by their own test *)

Section SamplingFacts.

(** Once the fuel covers the distance to the limit, more fuel adds no
    step: the loop has ended because [v < limit] failed. *)
Lemma stepped_enough (fuel k : nat) (v limit step : Q) :
  (0 < step)%Q ->
  (limit <= v + inject_Z (Z.of_nat fuel) * step)%Q ->
  stepped (fuel + k) v limit step = stepped fuel v limit step.
Proof.
  intros Hstep. revert v.
  induction fuel as [|fuel IH]; intros v Hcover.
  - change (inject_Z (Z.of_nat 0)) with 0%Q in Hcover.
    destruct k as [|k]; [reflexivity|].
    simpl. destruct (Qlt_le_dec v limit) as [Hlt|Hge]; [|reflexivity].
    exfalso. lra.
  - simpl. destruct (Qlt_le_dec v limit) as [Hlt|Hge]; [|reflexivity].
    f_equal. apply IH.
    rewrite Nat2Z.inj_succ in Hcover. unfold Z.succ in Hcover.
    rewrite inject_Z_plus in Hcover. change (inject_Z 1) with 1%Q in Hcover.
    set (f := inject_Z (Z.of_nat fuel)) in *. nra.
Qed.

Lemma steps_fuel_covers (limit step : Q) :
  (0 < step)%Q ->
  (limit <= 0 + inject_Z (Z.of_nat (steps_fuel limit step)) * step)%Q.
Proof.
  intros Hstep. unfold steps_fuel.
  rewrite Nat2Z.inj_succ. unfold Z.succ. rewrite inject_Z_plus.
  change (inject_Z 1) with 1%Q.
  pose proof (Qle_ceiling (limit / step)) as Hceil.
  assert (Hnat : (inject_Z (Qceiling (limit / step))
                  <= inject_Z (Z.of_nat (Z.to_nat (Qceiling (limit / step)))))%Q).
  { rewrite <- Zle_Qle. lia. }
  assert (Hq : (limit == (limit / step) * step)%Q).
  { field. intros H0. rewrite H0 in Hstep. apply (Qlt_irrefl 0). exact Hstep. }
  set (q := (limit / step)%Q) in *.
  set (f := inject_Z (Z.of_nat (Z.to_nat (Qceiling q)))) in *.
  rewrite Hq. nra.
Qed.

(** The fuel of the sampling loops is enough. *)
Lemma stepped_complete (k : nat) (limit step : Q) :
  (0 < step)%Q ->
  stepped (steps_fuel limit step + k) 0 limit step
  = stepped (steps_fuel limit step) 0 limit step.
Proof.
  intros Hstep. apply stepped_enough; [exact Hstep|].
  apply steps_fuel_covers. exact Hstep.
Qed.

Lemma samplingStep_positive (measureText : Q -> string -> Q) (width : Z) :
  (0 < samplingStep (fitLayout measureText width (layoutForWidth width)))%Q.
Proof.
  assert (Hbase : (0 < samplingStep (layoutForWidth width))%Q).
  { unfold layoutForWidth.
    repeat (match goal with |- context [if ?b then _ else _] => destruct b end);
      reflexivity. }
  unfold fitLayout.
  repeat (match goal with |- context [if ?b then _ else _] => destruct b end);
    cbn [samplingStep]; exact Hbase.
Qed.

End SamplingFacts.


(* ================================================================== *)
(** * The pose normalizer *)

Section PoseFacts.




Lemma sqDist_nonneg (p center : Vector3) : 0 <= sqDist p center.
Proof.
  unfold sqDist.
  set (a := vx p - vx center). set (b := vy p - vy center). set (c := vz p - vz center).
  nra.
Qed.


End PoseFacts.



(* ================================================================== *)
(** * The properties at sample inputs *)

Lemma recognizeGesture_first_match_priority_witness :
  length centred_frame = 21%nat /\
  exists d, Gesture.digits centred_frame = Some d /\
            Gesture.recognizeGesture centred_frame
            = Some (Gesture.first_match Gesture.priority_rules d).
Proof.
  split; [reflexivity|].
  destruct (recognizeGesture_first_match_priority centred_frame eq_refl)
    as (d & Hd & Hr & _).
  exists d. split; assumption.
Defined.

(** A frame whose landmarks coincide: every ratio is 0/0, no digit counts
    as extended, and the label is Ring. *)
Example coincident_landmarks_are_a_ring :
  Gesture.recognizeGesture centred_frame = Some (Some Ring).
Proof.
  assert (Hd : forall p, Gesture.dist p p = 0).
  { intros p. unfold Gesture.dist, hypot.
    replace ((lx p - lx p) * (lx p - lx p) + (ly p - ly p) * (ly p - ly p)) with 0 by ring.
    apply sqrt_0. }
  assert (Hr : forall c, ratio_gt 0 0 c = false).
  { intros c. unfold ratio_gt. rewrite decide_True by reflexivity.
    apply bool_decide_eq_false_2. lra. }
  unfold Gesture.recognizeGesture, Gesture.digits, Gesture.isThumbUp,
    Gesture.isExtended, centred_frame.
  simpl. rewrite !Hd, !Hr. reflexivity.
Qed.

Lemma dist_on_line (y1 y2 : R) :
  y2 <= y1 -> Gesture.dist (on_line y1) (on_line y2) = y1 - y2.
Proof.
  intros Hle. unfold Gesture.dist, hypot, on_line. simpl.
  replace ((0.5 - 0.5) * (0.5 - 0.5) + (y1 - y2) * (y1 - y2))
    with ((y1 - y2) * (y1 - y2)) by ring.
  apply sqrt_square. lra.
Qed.

Lemma ratio_gt_true (a b c : R) : 0 < b -> c * b < a -> ratio_gt a b c = true.
Proof.
  intros Hb Hc. unfold ratio_gt. rewrite decide_False by lra.
  apply bool_decide_eq_true_2.
  apply Rlt_gt. apply Rmult_lt_reg_r with b; [exact Hb|].
  unfold Rdiv. rewrite Rmult_assoc, Rinv_l by lra. lra.
Qed.

(** The open palm has five extended digits and is a Sphere. *)
Example open_palm_is_a_sphere :
  Gesture.recognizeGesture open_palm_frame = Some (Some Sphere).
Proof.
  unfold Gesture.recognizeGesture, Gesture.digits, Gesture.isThumbUp,
    Gesture.isExtended, open_palm_frame.
  simpl. rewrite !dist_on_line by lra.
  rewrite !ratio_gt_true by lra.
  rewrite !bool_decide_eq_true_2 by (unfold on_line; simpl; lra).
  reflexivity.
Qed.

Lemma animate_stale_hand_is_dropped_witness :
  1000 - lastHandTimestamp stale_hand_state > 800 /\
  handPresent stale_hand_state = true /\
  handPresent (animate 0 false no_color 1000 no_jitter stale_hand_state) = false /\
  followVelocity (animate 0 false no_color 1000 no_jitter stale_hand_state) = vzero.
Proof.
  assert (H : 1000 - lastHandTimestamp stale_hand_state > 800) by (simpl; lra).
  split; [exact H|]. split; [reflexivity|].
  exact (animate_stale_hand_is_dropped 0 false no_color 1000 no_jitter
           stale_hand_state H).
Defined.

Lemma coasting_is_unforced : unforced_run 1 0 coasting_ticks coasting_state.
Proof.
  unfold coasting_ticks. cbn [unforced_run tick_targets tick_random].
  set (s0 := set_targets [0; 0; 0] coasting_state).
  assert (H0 : unforced 1 0 s0).
  { split; [reflexivity|]. split; [reflexivity|]. split; [reflexivity|].
    intros [|[|[|c]]] Hc; try lia; reflexivity. }
  split; [exact H0|]. split; [|exact I].
  destruct (updateParticles_frame 1 no_jitter s0) as (Hhand & Hexp & _).
  split; [reflexivity|]. split; [exact Hhand|]. split; [exact Hexp|].
  intros c Hc.
  change (positions (set_targets [0.92; 0; 0] (updateParticles 1 no_jitter s0)))
    with (positions (updateParticles 1 no_jitter s0)).
  change (targets (set_targets [0.92; 0; 0] (updateParticles 1 no_jitter s0)))
    with [0.92; 0; 0].
  destruct (updateParticles_particle 1 s0 no_jitter 0 c eq_refl eq_refl
              ltac:(lia) Hc) as [_ ->].
  rewrite (unforced_tick 1 no_jitter s0 0 c H0 Hc).
  destruct c as [|[|[|c]]]; try lia; simpl; unfold DAMPING; lra.
Qed.

Lemma damping_decays_velocity_geometrically_witness :
  unforced_run 1 0 coasting_ticks coasting_state /\
  velocities (runTicks 1 coasting_ticks coasting_state) !!! 0%nat = 1 * DAMPING ^ 2 /\
  speedOf (velocities (runTicks 1 coasting_ticks coasting_state)) 0
  = speedOf (velocities coasting_state) 0 * DAMPING ^ 2.
Proof.
  split; [exact coasting_is_unforced|].
  destruct (damping_decays_velocity_geometrically 1 coasting_ticks coasting_state 0
              eq_refl eq_refl ltac:(lia) coasting_is_unforced)
    as (_ & _ & Hcomp & Hspeed).
  split; [exact (Hcomp 0%nat ltac:(lia))|exact Hspeed].
Defined.

Lemma near_hand_distSq : distSqOf (positions near_hand_state) vzero 0 = 1.
Proof. unfold distSqOf, offset. simpl. ring. Qed.

Lemma near_hand_allocated : buffers_allocated 1 near_hand_state.
Proof. repeat split; reflexivity. Qed.

Lemma hand_force_field_pulls_inward_witness :
  buffers_allocated 1 near_hand_state /\
  handPresent near_hand_state = true /\
  handForce (dynamicRadius near_hand_state)
    (distSqOf (positions near_hand_state) (handCentroid near_hand_state) 0) = 0.008 /\
  velocities (updateParticles 1 no_jitter near_hand_state) !!! 0%nat
  = (0 - 1 * 0.008) * DAMPING.
Proof.
  split; [exact near_hand_allocated|]. split; [reflexivity|].
  destruct (hand_force_field_pulls_inward 1 no_jitter near_hand_state 0
              near_hand_allocated ltac:(lia) eq_refl)
    as (Hvel & _ & _ & T3 & _).
  change (handCentroid near_hand_state) with vzero in *.
  change (dynamicRadius near_hand_state) with 1 in *.
  rewrite near_hand_distSq in *.
  assert (Hforce : handForce 1 1 = 0.008).
  { destruct T3 as [-> _]; lra. }
  split; [exact Hforce|].
  etransitivity; [exact (Hvel 0%nat ltac:(lia))|].
  rewrite Hforce. unfold explosionTerm, springTerm, offset. simpl. ring.
Defined.

Lemma version_bump_resets_stale_fades_witness :
  length (positions faded_state) = (length (occlusionFactors faded_state) * 3)%nat /\
  length fresh_base = (length (occlusionFactors faded_state) * 3)%nat /\
  (lastColorVersionApplied faded_state <= colorVersion faded_state)%nat /\
  occlusionFactors faded_state !!! 0%nat = 0.5 /\
  occlusionFactors
    (occludeParticles (markColorsUpdated (set_colors fresh_base faded_state))) !!! 0%nat
  = 1 /\
  colors
    (occludeParticles (markColorsUpdated (set_colors fresh_base faded_state))) !!! 1%nat
  = 0.4.
Proof.
  split; [reflexivity|]. split; [reflexivity|]. split; [simpl; lia|].
  split; [reflexivity|].
  destruct (version_bump_resets_stale_fades faded_state fresh_base eq_refl eq_refl
              ltac:(simpl; lia))
    as (_ & _ & _ & Hclear & _).
  destruct (Hclear 0%nat ltac:(simpl; lia)) as [Hf Hc].
  { intros (Hhand & _). discriminate Hhand. }
  split; [exact Hf|exact (Hc 1%nat ltac:(lia))].
Defined.

(** C6 as stated fails on the code.  The stale particle sits at depth
    offset 1 from a present hand of radius 1, on its axis; the base colors
    are written over the buffer and the token is bumped.  The next
    occlusion call drops the stale factor and stores the fresh fade, about
    one half: the stored green is below 0.24, not the base value 0.4. *)
Lemma version_bump_leaves_occluded_colors_faded :
  occluded (positions shadowed_state) (handCentroid shadowed_state)
    (handRadius3D shadowed_state) (handPresent shadowed_state) 0 /\
  fresh_base !!! 1%nat = 0.4 /\
  occlusionFactors
    (occludeParticles (markColorsUpdated (set_colors fresh_base shadowed_state))) !!! 0%nat
  < 0.6 /\
  colors
    (occludeParticles (markColorsUpdated (set_colors fresh_base shadowed_state))) !!! 1%nat
  < 0.24.
Proof.
  split.
  { unfold occluded, offset, shadowed_state. simpl. rewrite occlusionRadius_unit.
    split; [reflexivity|]. split; lra. }
  split; [reflexivity|].
  pose proof (applyOcclusion_particle [0; 0; 1] fresh_base [0.5] vzero 1
                (mkOcclusionOpts true OCCLUSION_MAX_FADE 1 0) 0) as Hp.
  cbv zeta in Hp. destruct Hp as (Hf & Hc & _); [simpl; lia|simpl; lia|].
  specialize (Hc 1%nat ltac:(lia)).
  assert (Hstart : startFactors [0.5] (mkOcclusionOpts true OCCLUSION_MAX_FADE 1 0)
                     !!! 0%nat = 1).
  { unfold startFactors. cbn [opt_lastColorVersionApplied opt_colorVersion].
    rewrite decide_True by lia. reflexivity. }
  rewrite Hstart in Hf, Hc.
  cbn [opt_handPresent opt_maxFade] in Hf, Hc.
  pose proof axis_fade as Haxis.
  change (nextFactor axis_positions vzero 1 true 0.75 0 1)
    with (nextFactor [0; 0; 1] vzero 1 true OCCLUSION_MAX_FADE 0 1) in Haxis.
  destruct (fresh_particle [0; 0; 1] vzero 1 true OCCLUSION_MAX_FADE 0
              (fresh_base !!! (0 * 3 + 1)%nat)) as [Hprod _].
  rewrite Hprod in Hc. rewrite <- Hf in Haxis, Hc.
  change (fresh_base !!! (0 * 3 + 1)%nat) with 0.4 in Hc.
  assert (Hstate :
    occlusionFactors
      (occludeParticles (markColorsUpdated (set_colors fresh_base shadowed_state)))
    = res_occlusionFactors
        (applyOcclusionToParticles [0; 0; 1] fresh_base [0.5] vzero 1
           (mkOcclusionOpts true OCCLUSION_MAX_FADE 1 0)) /\
    colors
      (occludeParticles (markColorsUpdated (set_colors fresh_base shadowed_state)))
    = res_colors
        (applyOcclusionToParticles [0; 0; 1] fresh_base [0.5] vzero 1
           (mkOcclusionOpts true OCCLUSION_MAX_FADE 1 0))).
  { unfold occludeParticles. cbv zeta.
    destruct (res_changed _); split; reflexivity. }
  destruct Hstate as [-> ->].
  split; [apply Haxis|].
  change (res_colors
            (applyOcclusionToParticles [0; 0; 1] fresh_base [0.5] vzero 1
               (mkOcclusionOpts true OCCLUSION_MAX_FADE 1 0)) !!! (0 * 3 + 1)%nat < 0.24).
  rewrite Hc. nra.
Qed.


Lemma distOf_on_axis (x : R) : 0 <= x -> distOf [x; 0; 0] vzero 0 = x.
Proof.
  intros Hx. unfold distOf, distSqOf, offset. simpl.
  replace ((x - 0) * (x - 0) + (0 - 0) * (0 - 0) + (0 - 0) * (0 - 0)) with (x * x)
    by ring.
  apply sqrt_square. exact Hx.
Qed.

Lemma pushRadius_unit : pushRadius 1 = 1.2.
Proof. unfold pushRadius. rewrite Rmax_left by (unfold EPS; lra). lra. Qed.

Lemma depth_push_changes_only_near_velocities_witness :
  length at_rest = length inside_positions /\
  (0 < length inside_positions / 3)%nat /\
  distOf inside_positions vzero 0 < pushRadius 1 /\
  applyDepthPushToParticles inside_positions at_rest vzero 1 None !!! 0%nat
  = 0 + ((1 - 0) / (distOf inside_positions vzero 0 + EPS))
        * ((1 - (distOf inside_positions vzero 0 + EPS) / pushRadius 1) * 0.18).
Proof.
  assert (Hk : (0 < length inside_positions / 3)%nat) by (simpl; lia).
  assert (Hin : distOf inside_positions vzero 0 < pushRadius 1).
  { unfold inside_positions. rewrite distOf_on_axis, pushRadius_unit; lra. }
  split; [reflexivity|]. split; [exact Hk|]. split; [exact Hin|].
  destruct (depth_push_changes_only_near_velocities inside_positions at_rest vzero 1
              None 0 eq_refl Hk) as (_ & _ & _ & Hnear & _).
  exact (Hnear Hin 0%nat ltac:(lia)).
Defined.

(** C10 as stated fails on the code.  For a hand of radius 1 at the origin
    (push radius 1.2) and particles at rest on the x axis: a particle at
    distance 1 gains less than the stated (1 - dist / radius) pushStrength
    along the unit vector, and a particle at distance 1.1999995, strictly
    inside the radius, is pushed toward the centroid, not away from it. *)
Lemma depth_push_is_not_the_unit_radial_push :
  (distOf inside_positions vzero 0 < pushRadius 1 /\
   applyDepthPushToParticles inside_positions at_rest vzero 1 None !!! 0%nat
   <> at_rest !!! 0%nat + radialPush inside_positions vzero 1 0.18 0 0) /\
  (distOf boundary_positions vzero 0 < pushRadius 1 /\
   applyDepthPushToParticles boundary_positions at_rest vzero 1 None !!! 0%nat < 0 /\
   0 < radialPush boundary_positions vzero 1 0.18 0 0).
Proof.
  assert (Hinv : forall d, 0 < d -> 0 < / d) by (intros; apply Rinv_0_lt_compat; lra).
  split.
  - assert (Hd : distOf inside_positions vzero 0 = 1)
      by (unfold inside_positions; rewrite distOf_on_axis; lra).
    split; [rewrite Hd, pushRadius_unit; lra|].
    pose proof (applyDepthPush_particle inside_positions at_rest vzero 1 None 0 0
                  eq_refl ltac:(simpl; lia) ltac:(lia)) as Hv.
    rewrite decide_True in Hv by (rewrite Hd, pushRadius_unit; lra).
    change (applyDepthPushToParticles inside_positions at_rest vzero 1 None !!! 0%nat)
      with (applyDepthPushToParticles inside_positions at_rest vzero 1 None
              !!! (0 * 3 + 0)%nat).
    rewrite Hv. unfold depthPush, radialPush. cbv zeta.
    rewrite Hd, pushRadius_unit. unfold offset, EPS. simpl.
    intros Heq.
    assert (Hq : (1 - 0) / (1 + 1e-6) * ((1 - (1 + 1e-6) / 1.2) * 0.18)
                 < (1 - 0) / 1 * ((1 - 1 / 1.2) * 0.18)).
    { unfold Rdiv. pose proof (Hinv (1 + 1e-6) ltac:(lra)) as Hpos.
      assert (Hlt : / (1 + 1e-6) < 1).
      { apply Rmult_lt_reg_r with (1 + 1e-6); [lra|]. rewrite Rinv_l by lra. lra. }
      nra. }
    lra.
  - assert (Hd : distOf boundary_positions vzero 0 = 1.1999995)
      by (unfold boundary_positions; rewrite distOf_on_axis; lra).
    split; [rewrite Hd, pushRadius_unit; lra|].
    pose proof (applyDepthPush_particle boundary_positions at_rest vzero 1 None 0 0
                  eq_refl ltac:(simpl; lia) ltac:(lia)) as Hv.
    rewrite decide_True in Hv by (rewrite Hd, pushRadius_unit; lra).
    change (applyDepthPushToParticles boundary_positions at_rest vzero 1 None !!! 0%nat)
      with (applyDepthPushToParticles boundary_positions at_rest vzero 1 None
              !!! (0 * 3 + 0)%nat).
    rewrite Hv. unfold depthPush, radialPush. cbv zeta.
    rewrite Hd, pushRadius_unit. unfold offset, EPS. simpl.
    unfold Rdiv.
    pose proof (Hinv (1.1999995 + 1e-6) ltac:(lra)) as Hp1.
    pose proof (Hinv 1.1999995 ltac:(lra)) as Hp2.
    split; nra.
Qed.

(* ================================================================== *)
(** * Further properties of the stabilizer and the classifier *)

Section CommitFacts.
Import Gesture.

Lemma getStableGesture_ignores_label (g x : RawGesture) (s : State) :
  (getStableGesture g (set_lastDetectedGesture x s)).1 = (getStableGesture g s).1.
Proof.
  unfold getStableGesture. cbn [gestureHistory set_lastDetectedGesture currentShape].
  repeat (match goal with |- context [match ?c with _ => _ end] => destruct c end;
          try reflexivity).
Qed.

Lemma stabilize_commit (g : RawGesture) (s : State) (l : GestureShape) :
  (getStableGesture g s).1 = Some l -> has_generator l = true ->
  currentShape (stabilize g s) = l /\ isExploding (stabilize g s) = true.
Proof.
  intros Hc Hg. rewrite <- (getStableGesture_ignores_label g g s) in Hc.
  unfold stabilize. cbv zeta.
  destruct (getStableGesture g (set_lastDetectedGesture g s)) as [c s1].
  simpl in Hc. subst c. rewrite Hg. split; reflexivity.
Qed.

Lemma getStableGesture_shape (g : RawGesture) (s : State) :
  currentShape (getStableGesture g s).2 = currentShape s.
Proof.
  unfold getStableGesture.
  repeat (match goal with |- context [match ?c with _ => _ end] => destruct c end;
          try reflexivity).
Qed.

Lemma stabilize_silent (g : RawGesture) (s : State) :
  (getStableGesture g s).1 = None -> currentShape (stabilize g s) = currentShape s.
Proof.
  intros Hc. rewrite <- (getStableGesture_ignores_label g g s) in Hc.
  unfold stabilize. cbv zeta.
  pose proof (getStableGesture_shape g (set_lastDetectedGesture g s)) as Hs.
  destruct (getStableGesture g (set_lastDetectedGesture g s)) as [c s1].
  simpl in Hc, Hs. subst c. exact Hs.
Qed.

(** A run that ends a history still shows in the last three entries one
    and two labels later. *)
Lemma stable_run_snoc (h : list RawGesture) (g : RawGesture) (l l1 : GestureShape) :
  stable_run h l -> stable_run (h ++ [g]) l1 -> l1 = l.
Proof.
  intros Hrun Hnext.
  destruct (last_three_split h (proj1 Hrun)) as (pre & a & b & c & ->).
  apply stable_run_three in Hrun. destruct Hrun as (_ & _ & Hc).
  replace ((pre ++ [a; b; c]) ++ [g]) with ((pre ++ [a]) ++ [b; c; g]) in Hnext
    by (rewrite <- !app_assoc; reflexivity).
  apply stable_run_three in Hnext. destruct Hnext as (_ & Hc' & _).
  congruence.
Qed.

Lemma stable_run_snoc2 (h : list RawGesture) (g1 g2 : RawGesture) (l l2 : GestureShape) :
  stable_run h l -> stable_run (h ++ [g1; g2]) l2 -> l2 = l.
Proof.
  intros Hrun Hnext.
  destruct (last_three_split h (proj1 Hrun)) as (pre & a & b & c & ->).
  apply stable_run_three in Hrun. destruct Hrun as (_ & _ & Hc).
  replace ((pre ++ [a; b; c]) ++ [g1; g2]) with ((pre ++ [a; b]) ++ [c; g1; g2]) in Hnext
    by (rewrite <- !app_assoc; reflexivity).
  apply stable_run_three in Hnext. destruct Hnext as (Hc' & _ & _).
  congruence.
Qed.

Lemma history_after_snoc (g g' : RawGesture) (s : State) (l : GestureShape) :
  stable_run (history_after g s ++ [g']) l -> stable_run (gestureHistory s ++ [g; g']) l.
Proof.
  rewrite getStableGesture_history.
  replace (gestureHistory s ++ [g; g']) with ((gestureHistory s ++ [g]) ++ [g'])
    by (rewrite <- app_assoc; reflexivity).
  set (X := gestureHistory s ++ [g]).
  destruct (decide (GESTURE_HISTORY_SIZE < length X)%nat) as [Hfull|Hroom];
    [|exact (fun H => H)].
  intros Hrun.
  assert (Htail : tail X ++ [g'] = tail (X ++ [g'])).
  { destruct X as [|x X']; [simpl in Hfull; unfold GESTURE_HISTORY_SIZE in Hfull; lia|].
    reflexivity. }
  rewrite Htail in Hrun. apply (stable_run_tail (X ++ [g']) l); [|exact Hrun].
  rewrite length_app. simpl. lia.
Qed.

End CommitFacts.

(** X1.  The history the stabilizer keeps is the last ten raw labels it
    was fed, oldest first: from any state whose history has at most ten
    entries, after the labels [gs] the history is the last ten entries of
    the old history followed by [gs], and its length is the smaller of 10
    and the number of labels seen. *)
Theorem gesture_history_keeps_last_ten_labels (s : State) (gs : list RawGesture) :
  (length (gestureHistory s) <= GESTURE_HISTORY_SIZE)%nat ->
  let s' := Gesture.feedGestures gs s in
  gestureHistory s'
    = Gesture.slice_last GESTURE_HISTORY_SIZE (gestureHistory s ++ gs) /\
  length (gestureHistory s')
    = Nat.min GESTURE_HISTORY_SIZE (length (gestureHistory s) + length gs).
Proof.
  intros Hlen s'. subst s'.
  rewrite feedGestures_history by exact Hlen.
  split; [reflexivity|].
  unfold Gesture.slice_last. rewrite length_drop, length_app.
  unfold GESTURE_HISTORY_SIZE. lia.
Qed.

(** X2.  Commits are at least three hand results apart: when a call of
    getStableGesture commits a label that has a generator, onHandsResults
    makes it the current shape and starts the explosion, and neither of
    the next two calls commits anything, whatever labels they are fed. *)
Theorem commits_are_three_frames_apart
  (s : State) (g g1 g2 : RawGesture) (l : GestureShape) :
  (Gesture.getStableGesture g s).1 = Some l ->
  Gesture.has_generator l = true ->
  let s1 := Gesture.stabilize g s in
  let s2 := Gesture.stabilize g1 s1 in
  currentShape s1 = l /\ isExploding s1 = true /\
  (Gesture.getStableGesture g1 s1).1 = None /\
  (Gesture.getStableGesture g2 s2).1 = None.
Proof.
  intros Hcommit Hgen s1 s2.
  destruct (stabilize_commit g s l Hcommit Hgen) as [Hshape Hexp].
  fold s1 in Hshape, Hexp.
  assert (Hrun : Gesture.stable_run (gestureHistory s1) l).
  { unfold s1. rewrite stabilize_history.
    apply getStableGesture_step in Hcommit. exact (proj1 Hcommit). }
  assert (H1 : (Gesture.getStableGesture g1 s1).1 = None).
  { destruct (Gesture.getStableGesture g1 s1).1 as [l1|] eqn:E; [|reflexivity].
    apply getStableGesture_step in E. destruct E as [Hr Hne].
    apply getStableGesture_pushed in Hr.
    rewrite (stable_run_snoc _ _ _ _ Hrun Hr) in Hne. congruence. }
  split; [exact Hshape|]. split; [exact Hexp|]. split; [exact H1|].
  destruct (Gesture.getStableGesture g2 s2).1 as [l2|] eqn:E; [|reflexivity].
  apply getStableGesture_step in E. destruct E as [Hr Hne].
  apply getStableGesture_pushed in Hr.
  unfold s2 in Hr at 1. rewrite stabilize_history in Hr.
  apply history_after_snoc in Hr.
  pose proof (stable_run_snoc2 _ _ _ _ _ Hrun Hr) as ->.
  unfold s2 in Hne. rewrite (stabilize_silent g1 s1 H1) in Hne. congruence.
Qed.

(* ------------------------------------------------------------------ *)

Section ClassifierInvariance.
Import Gesture.

Lemma lookup_needs_length {A : Type} (l : list A) (i : nat) (x : A) :
  l !! i = Some x -> (i < length l)%nat.
Proof. intros H. apply lookup_lt_is_Some. eexists. exact H. Qed.

Lemma digits_defined_iff (landmarks : list Landmark) :
  is_Some (digits landmarks) <-> (21 <= length landmarks)%nat.
Proof.
  split.
  - intros [d Hd]. unfold digits in Hd.
    destruct (isThumbUp landmarks); [|discriminate]. simpl in Hd.
    destruct (isExtended landmarks 8 6 5); [|discriminate]. simpl in Hd.
    destruct (isExtended landmarks 12 10 9); [|discriminate]. simpl in Hd.
    destruct (isExtended landmarks 16 14 13); [|discriminate]. simpl in Hd.
    destruct (isExtended landmarks 20 18 17) eqn:E; [|discriminate].
    unfold isExtended in E.
    destruct (landmarks !! 0%nat); [|discriminate]. simpl in E.
    destruct (landmarks !! 20%nat) eqn:E20; [|discriminate].
    apply lookup_needs_length in E20. lia.
  - intros Hlen.
    assert (Hget : forall i, (i < 21)%nat -> is_Some (landmarks !! i)).
    { intros i Hi. apply lookup_lt_is_Some. lia. }
    unfold digits, isThumbUp, isExtended.
    repeat match goal with
    | |- context [landmarks !! ?i] =>
        let p := fresh "p" in let E := fresh "E" in
        destruct (Hget i ltac:(lia)) as [p E]; rewrite E; clear E
    end.
    simpl. eexists. reflexivity.
Qed.

Lemma dist_reframe (sx a bx by_ : R) (depth : Landmark -> R) (p q : Landmark) :
  0 < a -> sx * sx = a * a ->
  dist (reframe sx a bx by_ depth p) (reframe sx a bx by_ depth q) = a * dist p q.
Proof.
  intros Ha Hsx. unfold dist, hypot, reframe. simpl.
  set (dx := lx p - lx q). set (dy := ly p - ly q).
  replace ((sx * lx p + bx - (sx * lx q + bx)) * (sx * lx p + bx - (sx * lx q + bx))
           + (a * ly p + by_ - (a * ly q + by_)) * (a * ly p + by_ - (a * ly q + by_)))
    with ((a * a) * (dx * dx + dy * dy)).
  2:{ unfold dx, dy.
      transitivity ((sx * sx) * ((lx p - lx q) * (lx p - lx q))
                    + (a * a) * ((ly p - ly q) * (ly p - ly q))); [rewrite Hsx|]; ring. }
  rewrite sqrt_mult_alt by nra.
  rewrite sqrt_square by lra. reflexivity.
Qed.

Lemma ratio_gt_scaled (a x y c : R) : 0 < a -> ratio_gt (a * x) (a * y) c = ratio_gt x y c.
Proof.
  intros Ha. unfold ratio_gt.
  destruct (decide (y = 0)) as [->|Hy].
  - rewrite Rmult_0_r. rewrite decide_True by reflexivity.
    apply bool_decide_ext. split; intros H; nra.
  - rewrite decide_False by (intros H; apply Hy; nra).
    replace (a * x / (a * y)) with (x / y) by (field; lra).
    reflexivity.
Qed.

Lemma isExtended_reframe (sx a bx by_ : R) (depth : Landmark -> R)
    (landmarks : list Landmark) (tipIdx pipIdx mcpIdx : nat) :
  0 < a -> sx * sx = a * a ->
  isExtended (reframe sx a bx by_ depth <$> landmarks) tipIdx pipIdx mcpIdx
  = isExtended landmarks tipIdx pipIdx mcpIdx.
Proof.
  intros Ha Hsx. unfold isExtended. rewrite !list_lookup_fmap.
  destruct (landmarks !! 0%nat) as [w|]; [|reflexivity].
  destruct (landmarks !! tipIdx) as [t|]; [|reflexivity].
  destruct (landmarks !! pipIdx) as [p|]; [|reflexivity].
  destruct (landmarks !! mcpIdx) as [m|]; [|reflexivity].
  simpl. rewrite !dist_reframe by assumption.
  rewrite !ratio_gt_scaled by assumption. reflexivity.
Qed.

Lemma isThumbUp_reframe (sx a bx by_ : R) (depth : Landmark -> R)
    (landmarks : list Landmark) :
  0 < a -> sx * sx = a * a ->
  isThumbUp (reframe sx a bx by_ depth <$> landmarks) = isThumbUp landmarks.
Proof.
  intros Ha Hsx. unfold isThumbUp. rewrite !list_lookup_fmap.
  destruct (landmarks !! 2%nat) as [m|]; [|reflexivity].
  destruct (landmarks !! 3%nat) as [p|]; [|reflexivity].
  destruct (landmarks !! 4%nat) as [t|]; [|reflexivity].
  destruct (landmarks !! 0%nat) as [w|]; [|reflexivity].
  simpl. rewrite !dist_reframe by assumption.
  rewrite ratio_gt_scaled by assumption.
  f_equal. f_equal; [f_equal|]; apply bool_decide_ext; split; intros H; nra.
Qed.

End ClassifierInvariance.

(** X3.  recognizeGesture returns exactly on the frames that have the 21
    landmarks it reads: with at least 21 entries it returns a label or
    null, with fewer it throws; and the label it returns is never Dragon,
    the one label without a generator. *)
Theorem recognizeGesture_returns_iff_21_landmarks (landmarks : list Landmark) :
  (is_Some (Gesture.recognizeGesture landmarks) <-> (21 <= length landmarks)%nat) /\
  Gesture.recognizeGesture landmarks <> Some (Some Dragon).
Proof.
  unfold Gesture.recognizeGesture. split.
  - rewrite <- digits_defined_iff.
    destruct (Gesture.digits landmarks) as [d|]; simpl; split; intros [x H];
      try discriminate; eexists; reflexivity.
  - destruct (Gesture.digits landmarks) as [d|]; simpl; [|discriminate].
    intros H. injection H as H. rewrite selectLabel_first_match in H.
    exact (proj2 (proj2 (proj2 (proj2 (proj2 (proj2 (first_match_cases d)))))) H).
Qed.

(** X4.  The classifier reads the shape of the hand in the image plane
    only: its result is the same after the frame is shifted, scaled
    uniformly by a positive factor, mirrored left to right, and given any
    other depth values. *)
Theorem recognizeGesture_depends_on_shape_only
  (sx a bx by_ : R) (depth : Landmark -> R) (landmarks : list Landmark) :
  0 < a -> (sx = a \/ sx = - a) ->
  Gesture.recognizeGesture (reframe sx a bx by_ depth <$> landmarks)
  = Gesture.recognizeGesture landmarks.
Proof.
  intros Ha Hsx.
  assert (Hsq : sx * sx = a * a) by (destruct Hsx as [-> | ->]; ring).
  unfold Gesture.recognizeGesture, Gesture.digits.
  rewrite isThumbUp_reframe, !isExtended_reframe by assumption.
  reflexivity.
Qed.

(* ================================================================== *)
(** * The pose smoother *)

Section InterpolationFacts.

Lemma clamp_unit (x : R) : 0 <= clamp x 0 1 <= 1.
Proof.
  unfold clamp, Rmax, Rmin.
  repeat (destruct (Rle_dec _ _)); lra.
Qed.

Lemma clamp_range (x lo hi : R) : lo <= hi -> lo <= clamp x lo hi <= hi.
Proof.
  intros H. unfold clamp, Rmax, Rmin.
  repeat (destruct (Rle_dec _ _)); lra.
Qed.

Lemma lerp_between (x y t lo hi : R) :
  0 <= t <= 1 -> lo <= x <= hi -> lo <= y <= hi -> lo <= lerp x y t <= hi.
Proof. intros Ht Hx Hy. unfold lerp. split; nra. Qed.

Lemma sqDist_vlerp_to (a b : Vector3) (t : R) :
  sqDist (vlerp a b t) b = ((1 - t) * (1 - t)) * sqDist a b.
Proof. unfold sqDist, vlerp. simpl. ring. Qed.

Lemma sqDist_vlerp_from (a b : Vector3) (t : R) :
  sqDist a (vlerp a b t) = (t * t) * sqDist a b.
Proof. unfold sqDist, vlerp. simpl. ring. Qed.

End InterpolationFacts.

(** X5.  smoothHandMovement moves the previous centre towards the new one
    by the share [t = clamp(alpha, 0, 1)] of their distance, whatever
    [alpha] is: the result is at [t] times the distance from the previous
    centre and at [1 - t] times the distance from the new one, it is the
    previous centre for [alpha <= 0] and the new one for [alpha >= 1]. *)
Theorem smoothHandMovement_moves_a_clamped_share (prev next : Vector3) (alpha : R) :
  let t := clamp alpha 0 1 in
  let p := smoothHandMovement prev next alpha in
  0 <= t <= 1 /\
  vdist prev p = t * vdist prev next /\
  vdist p next = (1 - t) * vdist prev next /\
  (alpha <= 0 -> p = prev) /\
  (1 <= alpha -> p = next).
Proof.
  intros t p. pose proof (clamp_unit alpha) as Ht. fold t in Ht.
  pose proof (sqDist_nonneg prev next) as Hd.
  split; [exact Ht|].
  split; [|split; [|split]].
  - unfold p, smoothHandMovement, vdist. cbv zeta. fold t.
    rewrite sqDist_vlerp_from, sqrt_mult_alt by nra.
    rewrite sqrt_square by lra. reflexivity.
  - unfold p, smoothHandMovement, vdist. cbv zeta. fold t.
    rewrite sqDist_vlerp_to, sqrt_mult_alt by nra.
    rewrite sqrt_square by lra. reflexivity.
  - intros Ha. assert (Ht0 : t = 0).
    { unfold t, clamp, Rmax, Rmin. repeat (destruct (Rle_dec _ _)); lra. }
    unfold p, smoothHandMovement. cbv zeta. fold t. rewrite Ht0.
    destruct prev as [x y z]. unfold vlerp. simpl. f_equal; ring.
  - intros Ha. assert (Ht1 : t = 1).
    { unfold t, clamp, Rmax, Rmin. repeat (destruct (Rle_dec _ _)); lra. }
    unfold p, smoothHandMovement. cbv zeta. fold t. rewrite Ht1.
    destruct next as [x y z]. unfold vlerp. simpl. f_equal; ring.
Qed.

(* ================================================================== *)
(** * The shape generators *)

Section TripleLoops.

Lemma for_loop_ext {A : Type} (n : nat) (f g : nat -> A -> A) (a : A) :
  (forall i x, (i < n)%nat -> f i x = g i x) -> for_loop n f a = for_loop n g a.
Proof.
  induction n as [|n IH]; intros H; simpl; [reflexivity|].
  rewrite IH by (intros; apply H; lia). apply H. lia.
Qed.

Lemma length_writeTriple (i : nat) (x y z : R) (a : list R) :
  length (writeTriple i x y z a) = length a.
Proof. unfold writeTriple. rewrite !length_insert. reflexivity. Qed.

Lemma writeTriple_other (i j : nat) (x y z : R) (a : list R) :
  (j < i * 3 \/ i * 3 + 2 < j)%nat -> writeTriple i x y z a !!! j = a !!! j.
Proof.
  intros H. unfold writeTriple.
  rewrite !list_lookup_total_insert_ne by lia. reflexivity.
Qed.

Lemma tripleAt_writeTriple (i : nat) (x y z : R) (a : list R) :
  (i * 3 + 2 < length a)%nat -> tripleAt (writeTriple i x y z a) i = mkVector3 x y z.
Proof.
  intros H. unfold tripleAt, writeTriple. f_equal.
  - rewrite !list_lookup_total_insert_ne by lia.
    apply list_lookup_total_insert_eq. lia.
  - rewrite list_lookup_total_insert_ne by lia.
    apply list_lookup_total_insert_eq. rewrite length_insert. lia.
  - apply list_lookup_total_insert_eq. rewrite !length_insert. lia.
Qed.

Lemma tripleAt_writeTriple_ne (i j : nat) (x y z : R) (a : list R) :
  i <> j -> tripleAt (writeTriple i x y z a) j = tripleAt a j.
Proof.
  intros H. unfold tripleAt. rewrite !writeTriple_other by lia. reflexivity.
Qed.

(** A loop that writes one triple per particle: the buffer keeps its
    length, particle [i] holds the triple of iteration [i], and the cells
    past the last particle are as before. *)
Lemma triples_loop (body : nat -> list R -> list R) (fx fy fz : nat -> R)
    (n : nat) (a : list R) :
  (forall i a, body i a = writeTriple i (fx i) (fy i) (fz i) a) ->
  let a' := for_loop n body a in
  length a' = length a /\
  (forall i, (i < n)%nat -> (i * 3 + 2 < length a)%nat ->
     tripleAt a' i = mkVector3 (fx i) (fy i) (fz i)) /\
  (forall j, (n * 3 <= j)%nat -> a' !!! j = a !!! j).
Proof.
  intros Hbody.
  induction n as [|n IH]; cbv zeta; simpl.
  - split; [reflexivity|]. split; [intros; lia|reflexivity].
  - cbv zeta in IH. destruct IH as (Hlen & Hin & Hout). rewrite Hbody.
    split; [rewrite length_writeTriple; exact Hlen|]. split.
    + intros i Hi Hroom. destruct (decide (i = n)) as [->|Hne].
      * apply tripleAt_writeTriple. rewrite Hlen. exact Hroom.
      * rewrite tripleAt_writeTriple_ne by congruence.
        apply Hin; [lia|exact Hroom].
    + intros j Hj. rewrite writeTriple_other by lia. apply Hout. lia.
Qed.

(** The cells of a triple, read back from [tripleAt]. *)
Lemma tripleAt_cells (a : list R) (i : nat) (p : Vector3) :
  tripleAt a i = p ->
  a !!! (i * 3)%nat = vx p /\ a !!! (i * 3 + 1)%nat = vy p /\ a !!! (i * 3 + 2)%nat = vz p.
Proof. intros <-. repeat split; reflexivity. Qed.

End TripleLoops.

Ltac triples N a H :=
  match goal with
  | |- context [for_loop N ?body a] =>
      epose proof (triples_loop body _ _ _ N a (fun _ _ => eq_refl)) as H;
      cbv zeta in H
  end.

Section Trigonometry.

Lemma sin_cos_square (x : R) : sin x * sin x + cos x * cos x = 1.
Proof. pose proof (sin2_cos2 x) as H. unfold Rsqr in H. exact H. Qed.

Lemma cos_triple (x : R) : cos (3 * x) = 4 * (cos x * cos x * cos x) - 3 * cos x.
Proof.
  replace (3 * x) with (2 * x + x) by ring.
  rewrite cos_plus, cos_2a_cos, sin_2a.
  pose proof (sin_cos_square x) as H.
  replace (2 * sin x * cos x * sin x) with (2 * cos x * (sin x * sin x)) by ring.
  replace (sin x * sin x) with (1 - cos x * cos x) by lra. ring.
Qed.

Lemma cos_quadruple (x : R) :
  cos (4 * x) = 8 * (cos x * cos x * cos x * cos x) - 8 * (cos x * cos x) + 1.
Proof.
  replace (4 * x) with (2 * (2 * x)) by ring.
  rewrite cos_2a_cos, cos_2a_cos. ring.
Qed.

(** The height of the heart curve, as a polynomial in [cos t]. *)
Lemma heart_height (t : R) :
  13 * cos t - 5 * cos (2 * t) - 2 * cos (3 * t) - cos (4 * t)
  = - 8 * (cos t * cos t * cos t * cos t) - 8 * (cos t * cos t * cos t)
    - 2 * (cos t * cos t) + 19 * cos t + 4.
Proof. rewrite cos_2a_cos, cos_triple, cos_quadruple. ring. Qed.

Lemma heart_height_range (c : R) :
  -1 <= c <= 1 ->
  -17 <= - 8 * (c * c * c * c) - 8 * (c * c * c) - 2 * (c * c) + 19 * c + 4 <= 12.
Proof.
  intros Hc. split.
  - replace (- 8 * (c * c * c * c) - 8 * (c * c * c) - 2 * (c * c) + 19 * c + 4)
      with ((c + 1) * (- 8 * (c * c * c) - 2 * c + 21) - 17) by ring.
    assert (0 <= c * c <= 1) by nra.
    assert (-1 <= c * c * c <= 1) by nra.
    assert (0 <= (c + 1) * (- 8 * (c * c * c) - 2 * c + 21)) by (apply Rmult_le_pos; lra).
    lra.
  - pose proof (Rle_0_sqr (2 * (c * c) + c - 1.3)) as H1.
    pose proof (Rle_0_sqr (c - 0.66)) as H2.
    unfold Rsqr in H1, H2. nra.
Qed.

Lemma planar_radius_of (r co si : R) :
  0 <= r -> si * si + co * co = 1 -> sqrt ((r * co) * (r * co) + (r * si) * (r * si)) = r.
Proof.
  intros Hr Hunit.
  replace ((r * co) * (r * co) + (r * si) * (r * si)) with ((r * r) * (si * si + co * co))
    by ring.
  rewrite Hunit, Rmult_1_r. apply sqrt_square. exact Hr.
Qed.

End Trigonometry.

Section GeneratorFacts.

Variable PARTICLE_COUNT : nat.

Lemma generateSphere_particle (s : State) (i : nat) :
  length (targets s) = (PARTICLE_COUNT * 3)%nat -> (i < PARTICLE_COUNT)%nat ->
  tripleAt (targets (generateSphere PARTICLE_COUNT s)) i =
  let phi := acos (-1 + (2 * INR i) / INR PARTICLE_COUNT) in
  let theta := sqrt (INR PARTICLE_COUNT * PI) * phi in
  mkVector3 (4 * cos theta * sin phi) (4 * sin theta * sin phi) (4 * cos phi).
Proof.
  intros Hlen Hi. unfold generateSphere. cbn [targets set_targets]. cbv zeta.
  triples PARTICLE_COUNT (targets s) H.
  apply H; lia.
Qed.

Lemma generateRing_particle (random : nat -> R) (s : State) (i : nat) :
  length (targets s) = (PARTICLE_COUNT * 3)%nat -> (i < PARTICLE_COUNT)%nat ->
  tripleAt (targets (generateRing PARTICLE_COUNT random s)) i =
  let theta := (INR i / INR PARTICLE_COUNT) * PI * 2 in
  let tubeAngle := random i * PI * 2 in
  mkVector3 ((4 + 1 * cos tubeAngle) * cos theta) ((4 + 1 * cos tubeAngle) * sin theta)
    (1 * sin tubeAngle).
Proof.
  intros Hlen Hi. unfold generateRing. cbn [targets set_targets]. cbv zeta.
  triples PARTICLE_COUNT (targets s) H.
  apply H; lia.
Qed.

Lemma generateStar_particle (random : nat -> R) (s : State) (i : nat) :
  length (targets s) = (PARTICLE_COUNT * 3)%nat -> (i < PARTICLE_COUNT)%nat ->
  tripleAt (targets (generateStar PARTICLE_COUNT random s)) i =
  let theta := (INR i / INR PARTICLE_COUNT) * PI * 2 in
  let r := 4 * (1 + 0.5 * cos (5 * theta)) in
  mkVector3 (r * cos theta) (r * sin theta) ((random i - 0.5) * 2).
Proof.
  intros Hlen Hi. unfold generateStar. cbn [targets set_targets]. cbv zeta.
  triples PARTICLE_COUNT (targets s) H.
  apply H; lia.
Qed.

Lemma generateHeart_particle (random : nat -> R) (s : State) (i : nat) :
  length (targets s) = (PARTICLE_COUNT * 3)%nat -> (i < PARTICLE_COUNT)%nat ->
  tripleAt (targets (generateHeart PARTICLE_COUNT random s)) i =
  let t := (INR i / INR PARTICLE_COUNT) * PI * 2 in
  mkVector3 (16 * sin t ^ 3 * 0.3)
    ((13 * cos t - 5 * cos (2 * t) - 2 * cos (3 * t) - cos (4 * t)) * 0.3)
    ((random i - 0.5) * 2).
Proof.
  intros Hlen Hi. unfold generateHeart. cbn [targets set_targets]. cbv zeta.
  triples PARTICLE_COUNT (targets s) H.
  apply H; lia.
Qed.

(** A generator rewrites the targets in place: the buffer keeps its
    length. *)
Lemma generator_length (body : nat -> list R -> list R) (fx fy fz : nat -> R) (a : list R) :
  (forall i a, body i a = writeTriple i (fx i) (fy i) (fz i) a) ->
  length (for_loop PARTICLE_COUNT body a) = length a.
Proof. intros H. exact (proj1 (triples_loop body fx fy fz PARTICLE_COUNT a H)). Qed.

Lemma generateSphere_length (s : State) :
  length (targets (generateSphere PARTICLE_COUNT s)) = length (targets s).
Proof.
  unfold generateSphere. cbn [targets set_targets].
  eapply generator_length. intros i a. reflexivity.
Qed.

Lemma generateRing_length (random : nat -> R) (s : State) :
  length (targets (generateRing PARTICLE_COUNT random s)) = length (targets s).
Proof.
  unfold generateRing. cbn [targets set_targets].
  eapply generator_length. intros i a. reflexivity.
Qed.

Lemma generateStar_length (random : nat -> R) (s : State) :
  length (targets (generateStar PARTICLE_COUNT random s)) = length (targets s).
Proof.
  unfold generateStar. cbn [targets set_targets].
  eapply generator_length. intros i a. reflexivity.
Qed.

Lemma generateHeart_length (random : nat -> R) (s : State) :
  length (targets (generateHeart PARTICLE_COUNT random s)) = length (targets s).
Proof.
  unfold generateHeart. cbn [targets set_targets].
  eapply generator_length. intros i a. reflexivity.
Qed.

Lemma particle_share (i : nat) :
  (i < PARTICLE_COUNT)%nat -> 0 <= INR i / INR PARTICLE_COUNT < 1.
Proof.
  intros Hi.
  assert (HN : 0 < INR PARTICLE_COUNT) by (apply lt_0_INR; lia).
  assert (H0 : 0 <= INR i) by apply pos_INR.
  assert (H1 : INR i < INR PARTICLE_COUNT) by (apply lt_INR; exact Hi).
  split.
  - apply Rmult_le_pos; [exact H0|]. apply Rlt_le, Rinv_0_lt_compat. exact HN.
  - apply Rmult_lt_reg_r with (INR PARTICLE_COUNT); [exact HN|].
    unfold Rdiv. rewrite Rmult_assoc, Rinv_l by lra. lra.
Qed.

End GeneratorFacts.

(** X6.  generateSphere puts every particle on the sphere of radius 4
    around the origin, and spaces the heights evenly: particle [i] of [N]
    has [z = -4 + 8 i / N], so equal bands of height hold equal numbers of
    particles.  The target buffer keeps its length. *)
Theorem generateSphere_targets_lie_on_the_sphere
  (PARTICLE_COUNT : nat) (s : State) (i : nat) :
  length (targets s) = (PARTICLE_COUNT * 3)%nat -> (i < PARTICLE_COUNT)%nat ->
  let p := tripleAt (targets (generateSphere PARTICLE_COUNT s)) i in
  vx p * vx p + vy p * vy p + vz p * vz p = 16 /\
  vz p = -4 + 8 * INR i / INR PARTICLE_COUNT /\
  length (targets (generateSphere PARTICLE_COUNT s)) = length (targets s).
Proof.
  intros Hlen Hi p. subst p.
  rewrite generateSphere_particle by assumption. cbv zeta.
  set (u := -1 + 2 * INR i / INR PARTICLE_COUNT).
  set (theta := sqrt (INR PARTICLE_COUNT * PI) * acos u).
  cbn [vx vy vz].
  pose proof (particle_share PARTICLE_COUNT i Hi) as Hshare.
  split; [|split].
  - pose proof (sin_cos_square theta) as Ht.
    pose proof (sin_cos_square (acos u)) as Hp.
    replace (4 * cos theta * sin (acos u) * (4 * cos theta * sin (acos u))
             + 4 * sin theta * sin (acos u) * (4 * sin theta * sin (acos u))
             + 4 * cos (acos u) * (4 * cos (acos u)))
      with (16 * ((sin theta * sin theta + cos theta * cos theta)
                  * (sin (acos u) * sin (acos u))
                  + cos (acos u) * cos (acos u))) by ring.
    rewrite Ht. lra.
  - rewrite cos_acos; unfold u; unfold Rdiv in *; lra.
  - apply generateSphere_length.
Qed.

(** X7.  generateRing puts every particle on the torus of major radius 4
    and tube radius 1 around the z axis, whatever Math.random() returns:
    with [rho] the distance of the target from the axis,
    [(rho - 4)^2 + z^2 = 1], and [rho] lies between 3 and 5. *)
Theorem generateRing_targets_lie_on_the_torus
  (PARTICLE_COUNT : nat) (random : nat -> R) (s : State) (i : nat) :
  length (targets s) = (PARTICLE_COUNT * 3)%nat -> (i < PARTICLE_COUNT)%nat ->
  let p := tripleAt (targets (generateRing PARTICLE_COUNT random s)) i in
  (planarRadius p - 4) * (planarRadius p - 4) + vz p * vz p = 1 /\
  3 <= planarRadius p <= 5 /\
  length (targets (generateRing PARTICLE_COUNT random s)) = length (targets s).
Proof.
  intros Hlen Hi p. subst p.
  rewrite generateRing_particle by assumption. cbv zeta.
  set (theta := INR i / INR PARTICLE_COUNT * PI * 2).
  set (tube := random i * PI * 2).
  unfold planarRadius. cbn [vx vy vz].
  pose proof (COS_bound tube) as Hc.
  pose proof (sin_cos_square tube) as Htube.
  rewrite planar_radius_of by (try apply sin_cos_square; lra).
  split; [nra|]. split; [lra|]. apply generateRing_length.
Qed.

(** X8.  generateStar draws the five-pointed star curve: the target of
    particle [i] is at distance [4 (1 + cos(5 theta) / 2)] from the z axis,
    [theta = 2 pi i / N], which lies between 2 and 6, and its depth is
    within [-1, 1) when Math.random() is in [0, 1). *)
Theorem generateStar_targets_follow_the_star_curve
  (PARTICLE_COUNT : nat) (random : nat -> R) (s : State) (i : nat) :
  length (targets s) = (PARTICLE_COUNT * 3)%nat -> (i < PARTICLE_COUNT)%nat ->
  0 <= random i < 1 ->
  let p := tripleAt (targets (generateStar PARTICLE_COUNT random s)) i in
  let theta := (INR i / INR PARTICLE_COUNT) * PI * 2 in
  planarRadius p = 4 * (1 + 0.5 * cos (5 * theta)) /\
  2 <= planarRadius p <= 6 /\
  -1 <= vz p < 1 /\
  length (targets (generateStar PARTICLE_COUNT random s)) = length (targets s).
Proof.
  intros Hlen Hi Hrandom p theta. subst p.
  rewrite generateStar_particle by assumption. cbv zeta. fold theta.
  unfold planarRadius. cbn [vx vy vz].
  pose proof (COS_bound (5 * theta)) as Hc.
  rewrite planar_radius_of by (try apply sin_cos_square; lra).
  split; [reflexivity|]. split; [lra|]. split; [lra|]. apply generateStar_length.
Qed.

(** X9.  generateHeart keeps every target inside the box of the heart
    curve scaled by 0.3: [|x| <= 4.8], [-5.1 <= y <= 3.6], and the depth
    within [-1, 1) when Math.random() is in [0, 1). *)
Theorem generateHeart_targets_stay_in_the_heart_box
  (PARTICLE_COUNT : nat) (random : nat -> R) (s : State) (i : nat) :
  length (targets s) = (PARTICLE_COUNT * 3)%nat -> (i < PARTICLE_COUNT)%nat ->
  0 <= random i < 1 ->
  let p := tripleAt (targets (generateHeart PARTICLE_COUNT random s)) i in
  -4.8 <= vx p <= 4.8 /\
  -5.1 <= vy p <= 3.6 /\
  -1 <= vz p < 1 /\
  length (targets (generateHeart PARTICLE_COUNT random s)) = length (targets s).
Proof.
  intros Hlen Hi Hrandom p. subst p.
  rewrite generateHeart_particle by assumption. cbv zeta.
  set (t := INR i / INR PARTICLE_COUNT * PI * 2).
  cbn [vx vy vz].
  pose proof (SIN_bound t) as Hs.
  pose proof (COS_bound t) as Hc.
  split; [|split; [|split]].
  - assert (Hcube : -1 <= sin t ^ 3 <= 1).
    { simpl. rewrite Rmult_1_r.
      assert (0 <= sin t * sin t <= 1) by nra. nra. }
    lra.
  - rewrite heart_height.
    pose proof (heart_height_range (cos t) Hc). lra.
  - lra.
  - apply generateHeart_length.
Qed.

(* ================================================================== *)
(** * The further properties at sample inputs *)

Lemma gesture_history_keeps_last_ten_labels_witness :
  (length (gestureHistory idle_state) <= GESTURE_HISTORY_SIZE)%nat /\
  gestureHistory (Gesture.feedGestures twelve_labels idle_state) = drop 2 twelve_labels /\
  length (gestureHistory (Gesture.feedGestures twelve_labels idle_state)) = 10%nat.
Proof.
  assert (H : (length (gestureHistory idle_state) <= GESTURE_HISTORY_SIZE)%nat)
    by (unfold GESTURE_HISTORY_SIZE; simpl; lia).
  split; [exact H|].
  exact (gesture_history_keeps_last_ten_labels idle_state twelve_labels H).
Defined.

Lemma commits_are_three_frames_apart_witness :
  (Gesture.getStableGesture (Some Star)
     (Gesture.feedGestures [Some Star; Some Star] idle_state)).1 = Some Star /\
  Gesture.has_generator Star = true /\
  (Gesture.getStableGesture (Some Star)
     (Gesture.feedGestures [Some Star; Some Star; Some Star] idle_state)).1 = None /\
  (Gesture.getStableGesture (Some Heart)
     (Gesture.feedGestures [Some Star; Some Star; Some Star; Some Star] idle_state)).1
  = None.
Proof.
  split; [reflexivity|]. split; [reflexivity|].
  destruct (commits_are_three_frames_apart
              (Gesture.feedGestures [Some Star; Some Star] idle_state)
              (Some Star) (Some Star) (Some Heart) Star eq_refl eq_refl)
    as (_ & _ & H1 & H2).
  split; [exact H1|exact H2].
Defined.

Lemma recognizeGesture_depends_on_shape_only_witness :
  0 < 2 /\ (-2 = 2 \/ -2 = - 2) /\
  Gesture.recognizeGesture (reframe (-2) 2 1 0 (fun _ => 0.3) <$> open_palm_frame)
  = Some (Some Sphere).
Proof.
  split; [lra|]. split; [right; lra|].
  rewrite (recognizeGesture_depends_on_shape_only (-2) 2 1 0 (fun _ => 0.3)
             open_palm_frame ltac:(lra) ltac:(right; lra)).
  exact open_palm_is_a_sphere.
Defined.

Lemma generateSphere_targets_lie_on_the_sphere_witness :
  length (targets two_particles) = (2 * 3)%nat /\ (1 < 2)%nat /\
  vz (tripleAt (targets (generateSphere 2 two_particles)) 1) = -4 + 8 * INR 1 / INR 2.
Proof.
  split; [reflexivity|]. split; [lia|].
  exact (proj1 (proj2 (generateSphere_targets_lie_on_the_sphere 2 two_particles 1
                         eq_refl ltac:(lia)))).
Defined.

Lemma generateRing_targets_lie_on_the_torus_witness :
  length (targets two_particles) = (2 * 3)%nat /\ (1 < 2)%nat /\
  3 <= planarRadius (tripleAt (targets (generateRing 2 no_jitter two_particles)) 1) <= 5.
Proof.
  split; [reflexivity|]. split; [lia|].
  exact (proj1 (proj2 (generateRing_targets_lie_on_the_torus 2 no_jitter two_particles 1
                         eq_refl ltac:(lia)))).
Defined.

Lemma generateStar_targets_follow_the_star_curve_witness :
  length (targets two_particles) = (2 * 3)%nat /\ (1 < 2)%nat /\ 0 <= no_jitter 1%nat < 1 /\
  2 <= planarRadius (tripleAt (targets (generateStar 2 no_jitter two_particles)) 1) <= 6.
Proof.
  assert (Hr : 0 <= no_jitter 1%nat < 1) by (unfold no_jitter; lra).
  split; [reflexivity|]. split; [lia|]. split; [exact Hr|].
  exact (proj1 (proj2 (generateStar_targets_follow_the_star_curve 2 no_jitter
                         two_particles 1 eq_refl ltac:(lia) Hr))).
Defined.

Lemma generateHeart_targets_stay_in_the_heart_box_witness :
  length (targets two_particles) = (2 * 3)%nat /\ (1 < 2)%nat /\ 0 <= no_jitter 1%nat < 1 /\
  -5.1 <= vy (tripleAt (targets (generateHeart 2 no_jitter two_particles)) 1) <= 3.6.
Proof.
  assert (Hr : 0 <= no_jitter 1%nat < 1) by (unfold no_jitter; lra).
  split; [reflexivity|]. split; [lia|]. split; [exact Hr|].
  exact (proj1 (proj2 (generateHeart_targets_stay_in_the_heart_box 2 no_jitter
                         two_particles 1 eq_refl ltac:(lia) Hr))).
Defined.

